(** * extrator_pdf: the table clean-up pipeline of [aplicativo_funcional_finalpdf.py]

  A shallow embedding of the Streamlit script: the per-table loop
  (lines 63-90), the summary block (lines 93-123), the export block
  (lines 126-147) and the [try]/[except]/[finally] frame around them
  (lines 40-156).  Python values are modelled as the interpreter has
  them: a [str] is a sequence of Unicode code points, a DataFrame is a
  list of column labels with a list of rows, and the missing-value
  sentinel [pd.NA] is a constructor of its own. *)

From Stdlib Require Import String Ascii DecimalString Decimal.
From Stdlib Require Import List NArith Bool Lia Arith PeanoNat Sorted Permutation.
Import ListNotations.

Set Implicit Arguments.

(** ** Python strings *)

Module PyStr.

(** A code point of a Python 3 [str]. *)
Definition codepoint : Type := N.
Definition pystr : Type := list codepoint.

Definition codepoint_eqb : codepoint -> codepoint -> bool := N.eqb.

Fixpoint pystr_eqb (a b : pystr) : bool :=
  match a, b with
  | [], [] => true
  | x :: a', y :: b' => codepoint_eqb x y && pystr_eqb a' b'
  | _, _ => false
  end.

(** A literal whose characters are all ASCII. *)
Definition lit (s : string) : pystr :=
  map N_of_ascii (list_ascii_of_string s).

(** A literal of the script, written as in the source file: the UTF-8
    bytes of the literal are decoded to code points (sequences of one
    to four bytes; the literals of the script are well-formed). *)
Fixpoint utf8_decode (bs : list N) : pystr :=
  match bs with
  | [] => []
  | b0 :: t0 =>
      if (b0 <? 0x80)%N then b0 :: utf8_decode t0
      else
        match t0 with
        | [] => []
        | b1 :: t1 =>
            if (b0 <? 0xE0)%N then
              ((b0 - 0xC0) * 64 + (b1 - 0x80))%N :: utf8_decode t1
            else
              match t1 with
              | [] => []
              | b2 :: t2 =>
                  if (b0 <? 0xF0)%N then
                    ((b0 - 0xE0) * 4096 + (b1 - 0x80) * 64 + (b2 - 0x80))%N
                      :: utf8_decode t2
                  else
                    match t2 with
                    | [] => []
                    | b3 :: t3 =>
                        ((b0 - 0xF0) * 262144 + (b1 - 0x80) * 4096
                         + (b2 - 0x80) * 64 + (b3 - 0x80))%N
                          :: utf8_decode t3
                    end
              end
        end
  end.

Definition u8 (s : string) : pystr := utf8_decode (lit s).

(** [str(n)] for a non-negative [int]. *)
Definition str_of_nat (n : nat) : pystr :=
  lit (NilZero.string_of_uint (Nat.to_uint n)).

Definition in_ranges (c : codepoint) (rs : list (N * N)) : bool :=
  existsb (fun r => (fst r <=? c)%N && (c <=? snd r)%N) rs.

(** [Py_UNICODE_ISSPACE]: the test behind both [\s] of a [str] pattern
    and [str.strip()] without argument. *)
Definition whitespace_ranges : list (N * N) :=
  [ (0x9, 0xD); (0x1C, 0x20); (0x85, 0x85); (0xA0, 0xA0);
    (0x1680, 0x1680); (0x2000, 0x200A); (0x2028, 0x2029);
    (0x202F, 0x202F); (0x205F, 0x205F); (0x3000, 0x3000) ]%N.

Definition isspace (c : codepoint) : bool := in_ranges c whitespace_ranges.

(** [Py_UNICODE_ISDECIMAL]: the test behind [\d] of a [str] pattern,
    the characters of general category Nd (Unicode 14.0 table). *)
Definition decimal_ranges : list (N * N) :=
  [ (0x30, 0x39); (0x660, 0x669); (0x6F0, 0x6F9); (0x7C0, 0x7C9);
    (0x966, 0x96F); (0x9E6, 0x9EF); (0xA66, 0xA6F); (0xAE6, 0xAEF);
    (0xB66, 0xB6F); (0xBE6, 0xBEF); (0xC66, 0xC6F); (0xCE6, 0xCEF);
    (0xD66, 0xD6F); (0xDE6, 0xDEF); (0xE50, 0xE59); (0xED0, 0xED9);
    (0xF20, 0xF29); (0x1040, 0x1049); (0x1090, 0x1099);
    (0x17E0, 0x17E9); (0x1810, 0x1819); (0x1946, 0x194F);
    (0x19D0, 0x19D9); (0x1A80, 0x1A89); (0x1A90, 0x1A99);
    (0x1B50, 0x1B59); (0x1BB0, 0x1BB9); (0x1C40, 0x1C49);
    (0x1C50, 0x1C59); (0xA620, 0xA629); (0xA8D0, 0xA8D9);
    (0xA900, 0xA909); (0xA9D0, 0xA9D9); (0xA9F0, 0xA9F9);
    (0xAA50, 0xAA59); (0xABF0, 0xABF9); (0xFF10, 0xFF19);
    (0x104A0, 0x104A9); (0x10D30, 0x10D39); (0x11066, 0x1106F);
    (0x110F0, 0x110F9); (0x11136, 0x1113F); (0x111D0, 0x111D9);
    (0x112F0, 0x112F9); (0x11450, 0x11459); (0x114D0, 0x114D9);
    (0x11650, 0x11659); (0x116C0, 0x116C9); (0x11730, 0x11739);
    (0x118E0, 0x118E9); (0x11950, 0x11959); (0x11C50, 0x11C59);
    (0x11D50, 0x11D59); (0x11DA0, 0x11DA9); (0x16A60, 0x16A69);
    (0x16AC0, 0x16AC9); (0x16B50, 0x16B59); (0x1D7CE, 0x1D7FF);
    (0x1E140, 0x1E149); (0x1E2F0, 0x1E2F9); (0x1E950, 0x1E959);
    (0x1FBF0, 0x1FBF9) ]%N.

Definition isdecimal (c : codepoint) : bool := in_ranges c decimal_ranges.

(** The ten characters [0-9]. *)
Definition is_ascii_digit (c : codepoint) : bool :=
  (0x30 <=? c)%N && (c <=? 0x39)%N.

Definition SPACE : codepoint := 0x20%N.
Definition NEWLINE : codepoint := 0x0A%N.

(** [re.sub(p+, repl, s)] for a one-character class [p]: scanning from
    the left, every maximal run of characters of the class is replaced
    by [repl].  [in_run] says that the previous character belonged to
    the run being replaced. *)
Fixpoint sub_runs (p : codepoint -> bool) (repl : pystr)
         (in_run : bool) (s : pystr) : pystr :=
  match s with
  | [] => []
  | c :: t =>
      if p c then
        if in_run then sub_runs p repl true t
        else repl ++ sub_runs p repl true t
      else c :: sub_runs p repl false t
  end.

(** [re.sub(r'\s+', ' ', s)] *)
Definition re_sub_ws (s : pystr) : pystr := sub_runs isspace [SPACE] false s.

(** [s.lstrip()] *)
Fixpoint lstrip (s : pystr) : pystr :=
  match s with
  | [] => []
  | c :: t => if isspace c then lstrip t else s
  end.

(** [s.rstrip()]: a character is kept when it is not whitespace or when
    something is kept to its right. *)
Fixpoint rstrip (s : pystr) : pystr :=
  match s with
  | [] => []
  | c :: t =>
      match rstrip t with
      | [] => if isspace c then [] else [c]
      | t' => c :: t'
      end
  end.

(** [s.strip()] *)
Definition strip (s : pystr) : pystr := rstrip (lstrip s).

(** [re.match(r'^\d+$', s) is not None].  The greedy [\d+] takes the
    longest run of decimal characters; [$] (without [re.MULTILINE])
    then succeeds at the end of the string and also just before a
    newline that is the last character. *)
Fixpoint skip_decimals (s : pystr) : pystr :=
  match s with
  | [] => []
  | c :: t => if isdecimal c then skip_decimals t else s
  end.

Definition match_digits (s : pystr) : bool :=
  match s with
  | [] => false
  | c :: t =>
      isdecimal c &&
      match skip_decimals t with
      | [] => true
      | [c'] => codepoint_eqb c' NEWLINE
      | _ => false
      end
  end.

End PyStr.

(** ** Exceptions and results *)

Module Exc.
Import PyStr.

(** The classes that matter to [except Exception]: [KeyError],
    [ValueError] and every other subclass of [Exception] are caught by
    it; [KeyboardInterrupt], [SystemExit] and the like derive from
    [BaseException] only. *)
Inductive exn_class : Type :=
| KeyError
| ValueError
| OtherException
| BaseExceptionOnly.

(** [exn_str] is what [str(e)] returns. *)
Record exn : Type := mk_exn { exn_cls : exn_class; exn_str : pystr }.

(** [isinstance(e, Exception)] *)
Definition is_Exception (e : exn) : bool :=
  match exn_cls e with
  | BaseExceptionOnly => false
  | _ => true
  end.

Inductive result (A : Type) : Type :=
| Ok (a : A)
| Raise (e : exn).
Arguments Ok {A} a.
Arguments Raise {A} e.

End Exc.

(** ** DataFrames *)

Module Frame.
Import PyStr Exc.

(** A value held by a frame of the script: a [str] or [pd.NA]. *)
Inductive cell : Type :=
| NA
| Str (s : pystr).

(** [str(x)] *)
Definition py_str (x : cell) : pystr :=
  match x with
  | NA => lit "<NA>"
  | Str s => s
  end.

(** [pd.isna(x)] *)
Definition isna (x : cell) : bool :=
  match x with
  | NA => true
  | Str _ => false
  end.

(** A column label: the position given by the default [RangeIndex] of
    [table.df], or a name. *)
Inductive label : Type :=
| Pos (i : nat)
| Name (s : pystr).

Definition label_eqb (a b : label) : bool :=
  match a, b with
  | Pos i, Pos j => Nat.eqb i j
  | Name s, Name t => pystr_eqb s t
  | _, _ => false
  end.

(** The row index is never read by the script ([reset_index(drop=True)],
    [ignore_index=True], [index=False]) and is left out. *)
Record DataFrame : Type := mk_df {
  columns : list label;
  rows : list (list cell)
}.

(** Every row has one cell per column. *)
Definition rectangular (df : DataFrame) : Prop :=
  Forall (fun r => length r = length (columns df)) (rows df).

(** [len(df)] *)
Definition len (df : DataFrame) : nat := length (rows df).

(** [df.shape[1]] *)
Definition shape1 (df : DataFrame) : nat := length (columns df).

(** [df.empty] *)
Definition empty (df : DataFrame) : bool :=
  Nat.eqb (len df) 0 || Nat.eqb (shape1 df) 0.

(** [df.replace('', pd.NA, inplace=True)] *)
Definition replace_empty (x : cell) : cell :=
  match x with
  | Str [] => NA
  | _ => x
  end.

Definition replace_empty_na (df : DataFrame) : DataFrame :=
  mk_df (columns df) (map (map replace_empty) (rows df)).

(** [df.dropna(how='all', inplace=True)]: a row goes when every cell of
    it is missing. *)
Definition all_na (r : list cell) : bool := forallb isna r.

Definition dropna_all (df : DataFrame) : DataFrame :=
  mk_df (columns df) (filter (fun r => negb (all_na r)) (rows df)).

(** [df.iloc[1:].reset_index(drop=True)] *)
Definition iloc_from_1 (df : DataFrame) : DataFrame :=
  mk_df (columns df) (tl (rows df)).

(** [data.columns = names]: pandas raises [ValueError] on a length
    mismatch. *)
Definition set_columns (names : list pystr) (df : DataFrame)
  : result DataFrame :=
  if Nat.eqb (length names) (shape1 df)
  then Ok (mk_df (map Name names) (rows df))
  else Raise (mk_exn ValueError (lit "Length mismatch")).

(** [df.applymap(f)] for an [f] that returns a [str]. *)
Definition applymap (f : cell -> pystr) (df : DataFrame) : DataFrame :=
  mk_df (columns df) (map (map (fun x => Str (f x))) (rows df)).

Fixpoint index_of (l : label) (cols : list label) : option nat :=
  match cols with
  | [] => None
  | c :: cs =>
      if label_eqb l c then Some 0
      else match index_of l cs with
           | Some i => Some (S i)
           | None => None
           end
  end.

(** [name in df.columns] *)
Definition has_column (name : pystr) (df : DataFrame) : bool :=
  match index_of (Name name) (columns df) with
  | Some _ => true
  | None => false
  end.

(** [df[name]]: the Series under that label, [KeyError] without it. *)
Definition getitem (name : pystr) (df : DataFrame) : result (list cell) :=
  match index_of (Name name) (columns df) with
  | Some i => Ok (map (fun r => nth i r NA) (rows df))
  | None => Raise (mk_exn KeyError name)
  end.

(** [series.str.match(r'^\d+$', na=False)] *)
Definition str_match_digits (x : cell) : bool :=
  match x with
  | NA => false
  | Str s => match_digits s
  end.

(** [df[mask]] for a boolean Series aligned with the rows. *)
Fixpoint select_rows (rs : list (list cell)) (mask : list bool)
  : list (list cell) :=
  match rs, mask with
  | r :: rs', b :: mask' =>
      if b then r :: select_rows rs' mask' else select_rows rs' mask'
  | _, _ => []
  end.

Definition boolean_index (df : DataFrame) (mask : list bool) : DataFrame :=
  mk_df (columns df) (select_rows (rows df) mask).

(** [table.df] of a Camelot table: [pd.DataFrame(grid)] for the grid
    of cell texts, with the default integer labels on the columns of
    its first row. *)
Definition from_grid (grid : list (list pystr)) : DataFrame :=
  mk_df (map Pos (seq 0 (length (hd [] grid)))) (map (map Str) grid).

(** [pd.concat(frames, ignore_index=True)] for frames that share their
    columns (the columns of the first one are kept). *)
Definition concat (frames : list DataFrame) : DataFrame :=
  mk_df (match frames with
         | [] => []
         | f :: _ => columns f
         end)
        (flat_map rows frames).

End Frame.

(** ** Counting values: [Series.nunique] and [Series.value_counts] *)

Module Counts.
Import PyStr Frame.

(** Both methods leave missing values out ([dropna=True]). *)
Fixpoint present (s : list cell) : list pystr :=
  match s with
  | [] => []
  | NA :: t => present t
  | Str v :: t => v :: present t
  end.

(** One more occurrence of [x]: its counter goes up, a value met for
    the first time is added after the ones already met. *)
Fixpoint bump (x : pystr) (acc : list (pystr * nat)) : list (pystr * nat) :=
  match acc with
  | [] => [(x, 1)]
  | (y, n) :: t =>
      if pystr_eqb x y then (y, S n) :: t else (y, n) :: bump x t
  end.

(** The hash table pandas fills: one entry per distinct value, in the
    order of first occurrence. *)
Definition tally (vs : list pystr) : list (pystr * nat) :=
  fold_left (fun acc x => bump x acc) vs [].

(** [Series.nunique()] *)
Definition nunique (s : list cell) : nat := length (tally (present s)).

(** The descending sort of the counts ([sort_values(ascending=False)]).
    pandas sorts with its default algorithm, which promises no order
    among equal counts; the library fixes only that the larger count
    comes first.  The function below returns one of the orders the
    library may return (an entry goes in front of the first entry whose
    count is not larger than its own); what is stated of the script is
    stated for every order that has the larger count first. *)
Fixpoint insert_desc (e : pystr * nat) (sorted : list (pystr * nat))
  : list (pystr * nat) :=
  match sorted with
  | [] => [e]
  | h :: t =>
      if snd h <=? snd e then e :: h :: t else h :: insert_desc e t
  end.

Definition sort_desc (l : list (pystr * nat)) : list (pystr * nat) :=
  fold_right insert_desc [] l.

(** [Series.value_counts()] *)
Definition value_counts (s : list cell) : list (pystr * nat) :=
  sort_desc (tally (present s)).

(** [sep.join(parts)] *)
Fixpoint join (sep : pystr) (parts : list pystr) : pystr :=
  match parts with
  | [] => []
  | [x] => x
  | x :: rest => x ++ sep ++ join sep rest
  end.

End Counts.

(** ** Delimited text: [DataFrame.to_csv(index=False)] *)

Module Csv.
Import PyStr Frame Counts.

Definition COMMA : codepoint := 0x2C%N.
Definition QUOTE : codepoint := 0x22%N.
Definition CR : codepoint := 0x0D%N.

Definition mem (c : codepoint) (s : pystr) : bool :=
  existsb (codepoint_eqb c) s.

(** [QUOTE_MINIMAL] of the [csv] writer pandas drives: a field is put in
    quotes when it holds the delimiter, the quote character or a
    character of the line terminator. *)
Definition needs_quotes (lineterminator : pystr) (field : pystr) : bool :=
  existsb (fun c => codepoint_eqb c COMMA || codepoint_eqb c QUOTE
                    || mem c lineterminator) field.

(** [doublequote=True]: a quote inside a field is written twice. *)
Fixpoint double_quotes (field : pystr) : pystr :=
  match field with
  | [] => []
  | c :: t =>
      if codepoint_eqb c QUOTE then QUOTE :: QUOTE :: double_quotes t
      else c :: double_quotes t
  end.

Definition write_field (lineterminator : pystr) (field : pystr) : pystr :=
  if needs_quotes lineterminator field
  then QUOTE :: double_quotes field ++ [QUOTE]
  else double_quotes field.

(** A record of one empty field is written as two quotes, every other
    record as its fields joined by commas. *)
Definition write_row (lineterminator : pystr) (fields : list pystr) : pystr :=
  match fields with
  | [ [] ] => [QUOTE; QUOTE] ++ lineterminator
  | _ => join [COMMA] (map (write_field lineterminator) fields)
           ++ lineterminator
  end.

(** A missing value is written as [na_rep=''], a [str] as it is. *)
Definition csv_value (x : cell) : pystr :=
  match x with
  | NA => []
  | Str s => s
  end.

Definition csv_label (l : label) : pystr :=
  match l with
  | Pos i => str_of_nat i
  | Name s => s
  end.

(** [df.to_csv(index=False)], which returns the text; [lineterminator]
    is [os.linesep] of the host. *)
Definition to_csv (lineterminator : pystr) (df : DataFrame) : pystr :=
  write_row lineterminator (map csv_label (columns df))
  ++ flat_map (fun r => write_row lineterminator (map csv_value r)) (rows df).

(** Modelled from the spec: the re-parsing of the exported text, which
    the repository does not contain.  It is a reader of comma-separated
    text in the format the export writes: records end at a line feed, a
    carriage return or the two in a row; fields are separated by
    commas; a field that starts with a quote runs to its closing quote,
    a doubled quote inside it standing for one; an empty line is a
    record without fields.  Fields are read as text, none is
    converted.  [field] holds the characters of the
    current field, last one first, and [row] the fields of the current
    record, last one first. *)
Inductive reader_state : Type :=
| RowStart
| AfterCR
| FieldStart
| Unquoted
| Quoted
| QuoteSeen.

Definition end_row (field : pystr) (row : list pystr) : list pystr :=
  rev (rev field :: row).

Fixpoint parse (text : pystr) (st : reader_state)
         (field : pystr) (row : list pystr) : list (list pystr) :=
  match text with
  | [] =>
      match st with
      | RowStart | AfterCR => []
      | _ => [end_row field row]
      end
  | c :: t =>
      match st with
      | RowStart | AfterCR | FieldStart =>
          if codepoint_eqb c NEWLINE then
            match st with
            | AfterCR => parse t RowStart [] []
            | RowStart => [] :: parse t RowStart [] []
            | _ => end_row [] row :: parse t RowStart [] []
            end
          else if codepoint_eqb c CR then
            match st with
            | FieldStart => end_row [] row :: parse t AfterCR [] []
            | _ => [] :: parse t AfterCR [] []
            end
          else if codepoint_eqb c QUOTE then parse t Quoted [] row
          else if codepoint_eqb c COMMA then parse t FieldStart [] ([] :: row)
          else parse t Unquoted [c] row
      | Unquoted =>
          if codepoint_eqb c NEWLINE then
            end_row field row :: parse t RowStart [] []
          else if codepoint_eqb c CR then
            end_row field row :: parse t AfterCR [] []
          else if codepoint_eqb c COMMA then
            parse t FieldStart [] (rev field :: row)
          else parse t Unquoted (c :: field) row
      | Quoted =>
          if codepoint_eqb c QUOTE then parse t QuoteSeen field row
          else parse t Quoted (c :: field) row
      | QuoteSeen =>
          if codepoint_eqb c QUOTE then parse t Quoted (c :: field) row
          else if codepoint_eqb c NEWLINE then
            end_row field row :: parse t RowStart [] []
          else if codepoint_eqb c CR then
            end_row field row :: parse t AfterCR [] []
          else if codepoint_eqb c COMMA then
            parse t FieldStart [] (rev field :: row)
          else parse t Unquoted (c :: field) row
      end
  end.

Fixpoint fields_eqb (a b : list pystr) : bool :=
  match a, b with
  | [], [] => true
  | x :: a', y :: b' => pystr_eqb x y && fields_eqb a' b'
  | _, _ => false
  end.

(** Modelled from the spec: reading the text back "with the same fixed
    header": the first record has to be the header, the others become
    the rows of a frame under it. *)
Definition read_csv (header : list pystr) (text : pystr) : option DataFrame :=
  match parse text RowStart [] [] with
  | first :: records =>
      if fields_eqb first header
      then Some (mk_df (map Name header) (map (map Str) records))
      else None
  | [] => None
  end.

End Csv.

(** ** The script: what it shows, the staged file, and its control flow *)

Module Script.
Import PyStr Exc Frame Counts Csv.

(** The value of a [st.metric]: a number or a text. *)
Inductive metric_value : Type :=
| MInt (n : nat)
| MText (s : pystr).

(** The data handed to [st.download_button]: the text of [to_csv] or
    the bytes of the workbook. *)
Inductive payload : Type :=
| Text (s : pystr)
| Bytes (b : list N).

(** What the script puts on the page, in the order of the calls.
    [progress num den] stands for [progress_bar.progress(num / den)]. *)
Inductive event : Type :=
| success (msg : pystr)
| warning (msg : pystr)
| error (msg : pystr)
| progress (num den : nat)
| subheader (msg : pystr)
| metric (name : pystr) (value : metric_value)
| caption (msg : pystr)
| dataframe (df : DataFrame)
| table (counts : list (pystr * nat))
| download_button (text : pystr) (data : payload) (file_name mime : pystr).

(** The state the script acts on: whether [temp.pdf] exists, and the
    page. *)
Record world : Type := mk_world {
  temp_pdf : bool;
  screen : list event
}.

(** A statement: it ends normally or raises, and leaves a world. *)
Definition M (A : Type) : Type := world -> result A * world.

Definition ret {A} (a : A) : M A := fun w => (Ok a, w).

Definition bind {A B} (m : M A) (k : A -> M B) : M B :=
  fun w =>
    match m w with
    | (Ok a, w') => k a w'
    | (Raise e, w') => (Raise e, w')
    end.

Definition lift {A} (r : result A) : M A := fun w => (r, w).

Definition show (e : event) : M unit :=
  fun w => (Ok tt, mk_world (temp_pdf w) (screen w ++ [e])).

Notation "x <- m ;; k" := (bind m (fun x => k))
  (at level 61, m at next level, right associativity).
Notation "m ;;; k" := (bind m (fun _ => k))
  (at level 61, right associativity).

(** Line 61. *)
Definition TOMB : pystr := u8 "Nº TOMB.".
Definition ESPECIFICACAO : pystr := u8 "ESPECIFICAÇÃO".
Definition CLASSIFICACAO : pystr := u8 "CLASSIFICAÇÃO".
Definition OBSERVACAO : pystr := u8 "OBSERVAÇÃO".
Definition RESPONSAVEL : pystr := u8 "RESPONSÁVEL".
Definition LOCALIZACAO : pystr := u8 "LOCALIZAÇÃO".

Definition fixed_header : list pystr :=
  [TOMB; ESPECIFICACAO; CLASSIFICACAO; OBSERVACAO; RESPONSAVEL; LOCALIZACAO].

(** Line 82: [lambda x: re.sub(r'\s+', ' ', str(x)).strip()] *)
Definition clean_cell (x : cell) : pystr := strip (re_sub_ws (py_str x)).

(** Line 85:
    [data[data["Nº TOMB."].str.match(r'^\d+$', na=False)]] *)
Definition record_filter (data : DataFrame) : result DataFrame :=
  match getitem TOMB data with
  | Ok ids => Ok (boolean_index data (map str_match_digits ids))
  | Raise e => Raise e
  end.

(** Line 77: the text of the warning. *)
Definition invalid_structure (idx ncols : nat) : pystr :=
  u8 "⚠️ Tabela " ++ str_of_nat (idx + 1) ++ u8 ": Estrutura inválida ("
  ++ str_of_nat ncols ++ u8 " colunas)".

(** Lines 64-90, the body of the loop for the table at position [idx]
    of [ntables]; [df_list] is the list the loop appends to, and
    [continue] is the early [ret].  The [header] of line 73 is computed
    and never read; it is left out. *)
Definition process_table (ntables idx : nat) (tbl : DataFrame)
           (df_list : list DataFrame) : M (list DataFrame) :=
  let df := dropna_all (replace_empty_na tbl) in
  if (len df <? 2) || (shape1 df <? 6) then ret df_list
  else
    let data := iloc_from_1 df in
    if negb (shape1 data =? 6) then
      show (warning (invalid_structure idx (shape1 data))) ;;;
      ret df_list
    else
      data <- lift (set_columns fixed_header data) ;;
      let data := applymap clean_cell data in
      data <- lift (record_filter data) ;;
      let df_list := if negb (empty data) then df_list ++ [data]
                     else df_list in
      show (progress (idx + 1) ntables) ;;;
      ret df_list.

(** Line 63: [for idx, table in enumerate(tables)] *)
Fixpoint process_tables (ntables idx : nat) (tables : list DataFrame)
         (df_list : list DataFrame) : M (list DataFrame) :=
  match tables with
  | [] => ret df_list
  | tbl :: rest =>
      df_list' <- process_table ntables idx tbl df_list ;;
      process_tables ntables (S idx) rest df_list'
  end.

(** [series.value_counts().index[:3]] *)
Definition top3 (s : list cell) : list pystr :=
  map fst (firstn 3 (value_counts s)).

(** Lines 97-123: the summary of the combined frame. *)
Definition summary (final_df : DataFrame) : M unit :=
  show (subheader (u8 "📊 Resumo dos Dados Extraídos")) ;;;
  show (metric (u8 "Total de Registros") (MInt (len final_df))) ;;;
  classificacoes <-
    (if has_column CLASSIFICACAO final_df
     then col <- lift (getitem CLASSIFICACAO final_df) ;;
          ret (MInt (nunique col))
     else ret (MText (u8 "N/A"))) ;;
  show (metric (u8 "Classificações Únicas") classificacoes) ;;;
  responsaveis <-
    (if has_column RESPONSAVEL final_df
     then col <- lift (getitem RESPONSAVEL final_df) ;;
          ret (nunique col)
     else ret 0) ;;
  show (metric (u8 "Responsáveis Únicos")
               (if responsaveis =? 0 then MText (u8 "N/A")
                else MInt responsaveis)) ;;;
  (if 1 <? responsaveis
   then col <- lift (getitem RESPONSAVEL final_df) ;;
        show (caption (u8 "Principais: " ++ join (u8 ", ") (top3 col)))
   else ret tt) ;;;
  show (dataframe final_df) ;;;
  (if has_column CLASSIFICACAO final_df
   then show (subheader (u8 "Classificações mais Frequentes")) ;;;
        col <- lift (getitem CLASSIFICACAO final_df) ;;
        show (table (firstn 10 (value_counts col)))
   else ret tt) ;;;
  (if has_column LOCALIZACAO final_df
   then show (subheader (u8 "Localizações mais Comuns")) ;;;
        col <- lift (getitem LOCALIZACAO final_df) ;;
        show (table (firstn 10 (value_counts col)))
   else ret tt).

(** The choice of the [st.selectbox] of line 126. *)
Inductive export_format : Type :=
| Excel
| CSV.

Definition format_name (f : export_format) : pystr :=
  match f with
  | Excel => u8 "Excel"
  | CSV => u8 "CSV"
  end.

(** How the [with open(temp_pdf, "wb")] block of lines 42-43 ends: the
    file cannot be opened, it is created and the write fails, or the
    upload is saved. *)
Inductive save_outcome : Type :=
| OpenFails (e : exn)
| WriteFails (e : exn)
| Saved.

(** What the script receives from outside: the fate of the staging
    write, the result of Camelot's [read_pdf] on the staged file, the
    format the user picks, the workbook writer of pandas and openpyxl,
    and [os.linesep]. *)
Record env : Type := mk_env {
  save : save_outcome;
  read_pdf : result (list DataFrame);
  chosen_format : export_format;
  to_excel : DataFrame -> result (list N);
  linesep : pystr
}.

(** Lines 126-147. *)
Definition export (E : env) (final_df : DataFrame) : M unit :=
  let export_format := chosen_format E in
  out <-
    (match export_format with
     | Excel =>
         data <- lift (to_excel E final_df) ;;
         ret (Bytes data,
              u8 "application/vnd.openxmlformats-officedocument.spreadsheetml.sheet",
              u8 "xlsx")
     | CSV =>
         ret (Text (to_csv (linesep E) final_df), u8 "text/csv", u8 "csv")
     end) ;;
  let '(data, mime_type, file_extension) := out in
  show (download_button (u8 "📩 Download em " ++ format_name export_format)
                        data
                        (u8 "dados_extraidos." ++ file_extension)
                        mime_type).

(** Lines 42-43. *)
Definition save_upload (E : env) : M unit :=
  fun w =>
    match save E with
    | OpenFails e => (Raise e, w)
    | WriteFails e => (Raise e, mk_world true (screen w))
    | Saved => (Ok tt, mk_world true (screen w))
    end.

(** Lines 41-149: the body of the [try]. *)
Definition try_body (E : env) : M unit :=
  save_upload E ;;;
  tables <- lift (read_pdf E) ;;
  show (success (u8 "✅ " ++ str_of_nat (length tables)
                 ++ u8 " tabelas detectadas")) ;;;
  show (progress 0 1) ;;;
  df_list <- process_tables (length tables) 0 tables [] ;;
  match df_list with
  | _ :: _ =>
      let final_df := concat df_list in
      summary final_df ;;;
      export E final_df
  | [] =>
      show (warning (u8 "⚠️ Nenhum dado válido encontrado após processamento"))
  end.

(** Lines 151-152: [except Exception as e]. *)
Definition except_Exception (r : result unit) : M unit :=
  match r with
  | Ok tt => ret tt
  | Raise e =>
      if is_Exception e
      then show (error (u8 "❌ Erro inesperado: " ++ exn_str e))
      else lift (Raise e)
  end.

(** Lines 154-156: [finally]. *)
Definition finally_remove : M unit :=
  fun w =>
    if temp_pdf w then (Ok tt, mk_world false (screen w)) else (Ok tt, w).

(** Lines 38-156: one processing pass over an uploaded file. *)
Definition processing_pass (E : env) : M unit :=
  fun w =>
    let '(r, w1) := try_body E w in
    let '(r', w2) := except_Exception r w1 in
    let '(_, w3) := finally_remove w2 in
    (r', w3).

End Script.

(** ** Predicates used by the statements *)

Module Shape.
Import PyStr Exc Frame Counts Csv Script.

(** A string in which whitespace only occurs as single U+0020 between
    other characters, read from the left; [prev_space] says that the
    character before the string is a space. *)
Fixpoint squeezed (prev_space : bool) (s : pystr) : bool :=
  match s with
  | [] => true
  | c :: t =>
      if isspace c
      then codepoint_eqb c SPACE && negb prev_space && squeezed true t
      else squeezed false t
  end.

(** Every character is one of [0-9]. *)
Definition ascii_digits (s : pystr) : bool :=
  match s with
  | [] => false
  | _ => forallb is_ascii_digit s
  end.

(** Every character is a Unicode decimal digit, and there is one. *)
Definition decimal_digits (s : pystr) : bool :=
  match s with
  | [] => false
  | _ => forallb isdecimal s
  end.

(** The part of a table that reaches the combined frame: nothing for a
    table the loop passes over, else the cleaned data rows whose first
    field is made of decimal digits. *)
Definition prepared (tbl : DataFrame) : DataFrame :=
  dropna_all (replace_empty_na tbl).

Definition identifier (r : list cell) : pystr := py_str (nth 0 r NA).

Definition cleaned_rows (tbl : DataFrame) : list (list cell) :=
  map (map (fun x => Str (clean_cell x))) (tl (rows (prepared tbl))).

Definition records (tbl : DataFrame) : list (list cell) :=
  if (len (prepared tbl) <? 2) || negb (shape1 tbl =? 6) then []
  else filter (fun r => decimal_digits (identifier r)) (cleaned_rows tbl).

(** What the loop appends for a table: its records under the fixed
    header, when there are any. *)
Definition appended (tbl : DataFrame) (df_list : list DataFrame)
  : list DataFrame :=
  match records tbl with
  | [] => df_list
  | _ :: _ => df_list ++ [mk_df (map Name fixed_header) (records tbl)]
  end.

(** Every frame of [df_list] carries the fixed header and has a row. *)
Definition fragments_ok (df_list : list DataFrame) : Prop :=
  Forall (fun d => columns d = map Name fixed_header /\ rows d <> []) df_list.

(** The Series under the [i]-th label. *)
Definition column (i : nat) (df : DataFrame) : list cell :=
  map (fun r => nth i r NA) (rows df).

(** How often [v] occurs in [vs], and where it occurs first. *)
Definition occurrences (v : pystr) (vs : list pystr) : nat :=
  length (filter (pystr_eqb v) vs).

Fixpoint first_pos (v : pystr) (vs : list pystr) : nat :=
  match vs with
  | [] => 0
  | x :: t => if pystr_eqb v x then 0 else S (first_pos v t)
  end.

(** The counter kept for [v] in a tally, 0 without one. *)
Fixpoint get (v : pystr) (acc : list (pystr * nat)) : nat :=
  match acc with
  | [] => 0
  | (y, n) :: t => if pystr_eqb v y then n else get v t
  end.

(** What [value_counts] may return for the values [vs]: every value
    once, with the number of its occurrences, the larger count first;
    the order among equal counts is left open. *)
Definition counts_descending (vs : list pystr) (vc : list (pystr * nat))
  : Prop :=
  NoDup (map fst vc)
  /\ (forall v n, In (v, n) vc <-> In v vs /\ n = occurrences v vs)
  /\ StronglySorted (fun a b => snd b <= snd a) vc.

(** [a] met before [b] in [vs]. *)
Definition met_before (vs : list pystr) (a b : pystr * nat) : Prop :=
  first_pos (fst a) vs < first_pos (fst b) vs.

(** The order of [value_counts]: the larger count first, and of two
    equal counts the value met first. *)
Definition ranked_before (vs : list pystr) (a b : pystr * nat) : Prop :=
  snd b < snd a \/ (snd a = snd b /\ met_before vs a b).

Definition pystr_dec : forall a b : pystr, {a = b} + {a <> b} :=
  list_eq_dec N.eq_dec.

(** A text without line feed and carriage return. *)
Definition one_line (f : pystr) : bool :=
  forallb (fun c => negb (codepoint_eqb c NEWLINE) && negb (codepoint_eqb c CR))
          f.

(** [os.linesep] of a POSIX host or of Windows. *)
Definition end_of_line (ls : pystr) : Prop :=
  ls = [NEWLINE] \/ ls = [CR; NEWLINE].

(** A record of the combined frame: six cells, each the cleaned text of
    some cell. *)
Definition final_record (r : list cell) : Prop :=
  length r = 6 /\ Forall (fun x => exists y, x = Str (clean_cell y)) r.

(** A cell that holds the empty string. *)
Definition is_empty_str (x : cell) : bool :=
  match x with
  | Str [] => true
  | _ => false
  end.

Definition is_warning (e : event) : bool :=
  match e with
  | warning _ => true
  | _ => false
  end.

Definition is_error (e : event) : bool :=
  match e with
  | error _ => true
  | _ => false
  end.

Definition is_caption (e : event) : bool :=
  match e with
  | caption _ => true
  | _ => false
  end.

Definition is_download (e : event) : bool :=
  match e with
  | download_button _ _ _ _ => true
  | _ => false
  end.

Definition is_progress (e : event) : bool :=
  match e with
  | progress _ _ => true
  | _ => false
  end.

(** The two checks of lines 69 and 76 on a table: passed, or failed on
    the width with the rows there. *)
Definition passes_checks (tbl : DataFrame) : bool :=
  (2 <=? len (prepared tbl)) && (shape1 tbl =? 6).

Definition too_wide (tbl : DataFrame) : bool :=
  (2 <=? len (prepared tbl)) && (6 <? shape1 tbl).

(** What the body of the loop shows for the table at position [idx]. *)
Definition table_events (ntables idx : nat) (tbl : DataFrame) : list event :=
  if passes_checks tbl then [progress (idx + 1) ntables]
  else if too_wide tbl then [warning (invalid_structure idx (shape1 tbl))]
  else [].

Fixpoint loop_events (ntables idx : nat) (tables : list DataFrame)
  : list event :=
  match tables with
  | [] => []
  | tbl :: rest =>
      table_events ntables idx tbl ++ loop_events ntables (S idx) rest
  end.

(** The frame of line 94 in terms of the tables. *)
Definition combined (tables : list DataFrame) : DataFrame :=
  mk_df (map Name fixed_header) (flat_map records tables).

(** What a pass shows from the end of the extraction to the end of
    the loop, and what the summary shows for a frame under the fixed
    header. *)
Definition opening (tables : list DataFrame) : list event :=
  [ success (u8 "✅ " ++ str_of_nat (length tables)
             ++ u8 " tabelas detectadas");
    progress 0 1 ]
  ++ loop_events (length tables) 0 tables.

Definition summary_events (final_df : DataFrame) : list event :=
  [ subheader (u8 "📊 Resumo dos Dados Extraídos");
    metric (u8 "Total de Registros") (MInt (len final_df));
    metric (u8 "Classificações Únicas")
           (MInt (nunique (column 2 final_df)));
    metric (u8 "Responsáveis Únicos")
           (if nunique (column 4 final_df) =? 0 then MText (u8 "N/A")
            else MInt (nunique (column 4 final_df))) ]
  ++ (if 1 <? nunique (column 4 final_df)
      then [caption (u8 "Principais: "
                     ++ join (u8 ", ") (top3 (column 4 final_df)))]
      else [])
  ++ [ dataframe final_df;
       subheader (u8 "Classificações mais Frequentes");
       table (firstn 10 (value_counts (column 2 final_df)));
       subheader (u8 "Localizações mais Comuns");
       table (firstn 10 (value_counts (column 5 final_df))) ].

(** The number of line feeds in a text. *)
Definition line_feeds (s : pystr) : nat :=
  length (filter (fun c => codepoint_eqb c NEWLINE) s).

(** The characters of a text that are not whitespace. *)
Definition nonspace (s : pystr) : pystr :=
  filter (fun c => negb (isspace c)) s.

(** A cell that holds a cleaned text with a character in it. *)
Definition clean_filled (x : cell) : Prop :=
  exists y, x = Str (clean_cell y) /\ clean_cell y <> [].

(** A row that is a record already: six filled clean cells, the first
    made of decimal digits. *)
Definition clean_record (r : list cell) : Prop :=
  length r = 6 /\ Forall clean_filled r
  /\ decimal_digits (identifier r) = true.

End Shape.

(** ** Concrete inputs *)

Module Cases.
Import PyStr Exc Frame Counts Csv Script Shape.

(** A fresh run: no staged file, an empty page. *)
Definition w0 : world := mk_world false [].

(** The grid of the specification's scenario. *)
Definition scenario_grid : list (list pystr) :=
  [ [u8 "Nº"; lit "Esp"; lit "Cls"; lit "Obs"; lit "Resp"; lit "Loc"];
    [lit "12"; lit "Chair"; lit "Furniture"; []; lit "Alice"; lit "RoomA"];
    [lit "x"; lit "Bad"; lit "Row"; []; lit "Bob"; lit "RoomB"] ].

(** Two rows of five columns. *)
Definition five_columns : list (list pystr) :=
  [ [lit "a"; lit "b"; lit "c"; lit "d"; lit "e"];
    [lit "1"; lit "x"; lit "y"; lit "z"; lit "w"] ].

(** Two rows of seven columns. *)
Definition seven_columns : list (list pystr) :=
  [ [lit "a"; lit "b"; lit "c"; lit "d"; lit "e"; lit "f"; lit "g"];
    [lit "1"; lit "x"; lit "y"; lit "z"; lit "w"; lit "v"; lit "u"] ].

(** A header and two rows of empty cells. *)
Definition blank_rows : list (list pystr) :=
  [ [u8 "Nº"; lit "Esp"; lit "Cls"; lit "Obs"; lit "Resp"; lit "Loc"];
    [[]; []; []; []; []; []];
    [[]; []; []; []; []; []] ].

(** An identifier written with ARABIC-INDIC DIGIT THREE (U+0663). *)
Definition arabic_three : pystr := [0x663%N].

Definition arabic_grid : list (list pystr) :=
  [ [u8 "Nº"; lit "Esp"; lit "Cls"; lit "Obs"; lit "Resp"; lit "Loc"];
    [arabic_three; lit "Chair"; lit "Furniture"; lit "ok"; lit "Alice";
     lit "RoomA"] ].

(** Combined frames for the summary: the responsible parties of the
    specification's scenario, and a single record. *)
Definition party_row (id party : pystr) : list cell :=
  [Str id; Str (lit "Chair"); Str (lit "Furniture"); Str (lit "ok");
   Str party; Str (lit "RoomA")].

Definition four_parties : DataFrame :=
  mk_df (map Name fixed_header)
        [ party_row (lit "1") (lit "Alice"); party_row (lit "2") (lit "Alice");
          party_row (lit "3") (lit "Bob"); party_row (lit "4") (lit "Carol") ].

Definition one_party : DataFrame :=
  mk_df (map Name fixed_header) [ party_row (lit "1") (lit "Alice") ].

(** An upload Camelot cannot read, and one that holds the scenario's
    table; POSIX line ends, CSV chosen, a workbook writer that returns
    no bytes. *)
Definition unreadable : env :=
  mk_env Saved
         (Raise (mk_exn OtherException (lit "file has not been decrypted")))
         CSV (fun _ => Ok []) [NEWLINE].

Definition readable : env :=
  mk_env Saved (Ok [from_grid scenario_grid]) CSV (fun _ => Ok []) [NEWLINE].

(** An extraction the user interrupts: [KeyboardInterrupt] derives from
    [BaseException] only. *)
Definition interrupted : env :=
  mk_env Saved (Raise (mk_exn BaseExceptionOnly (lit "KeyboardInterrupt")))
         CSV (fun _ => Ok []) [NEWLINE].

(** Uploads for the other ways a pass can go: a table without records,
    the workbook chosen and written, the workbook chosen and openpyxl
    missing. *)
Definition nothing_valid : env :=
  mk_env Saved (Ok [from_grid five_columns]) CSV (fun _ => Ok []) [NEWLINE].

Definition workbook : env :=
  mk_env Saved (Ok [from_grid scenario_grid]) Excel
         (fun _ => Ok [0x50; 0x4B]%N) [NEWLINE].

Definition no_openpyxl : env :=
  mk_env Saved (Ok [from_grid scenario_grid]) Excel
         (fun _ => Raise (mk_exn OtherException
                                 (lit "No module named 'openpyxl'")))
         [NEWLINE].

(** A table without a header row: both rows are records already. *)
Definition headless : DataFrame :=
  mk_df (map Pos (seq 0 6))
        [ party_row (lit "1") (lit "Alice"); party_row (lit "2") (lit "Bob") ].

End Cases.

Import PyStr Exc Frame Counts Csv Script Shape Cases.

(** * Whitespace normalisation (line 82) *)

Section Normalizer.

Lemma isspace_SPACE : isspace SPACE = true.
Proof. reflexivity. Qed.

Lemma sub_runs_squeezed (s : pystr) :
  forall b, squeezed b (sub_runs isspace [SPACE] b s) = true.
Proof.
  induction s as [|c t IH]; intros b; simpl; [reflexivity|].
  destruct (isspace c) eqn:Hc.
  - destruct b; simpl.
    + apply IH.
    + apply IH.
  - simpl. rewrite Hc. apply IH.
Qed.

Lemma squeezed_sub_runs (s : pystr) :
  forall b, squeezed b s = true -> sub_runs isspace [SPACE] b s = s.
Proof.
  induction s as [|c t IH]; intros b H; simpl in *; [reflexivity|].
  destruct (isspace c) eqn:Hc.
  - apply andb_prop in H as [H Ht]. apply andb_prop in H as [Hsp Hb].
    apply N.eqb_eq in Hsp. destruct b; [discriminate|].
    simpl. rewrite (IH true Ht). now rewrite Hsp.
  - now rewrite (IH false H).
Qed.

Lemma squeezed_weaken (s : pystr) :
  squeezed true s = true -> squeezed false s = true.
Proof.
  destruct s as [|c t]; simpl; [easy|].
  destruct (isspace c); [|easy].
  rewrite andb_false_r. discriminate.
Qed.

Lemma squeezed_any (s : pystr) (b : bool) :
  squeezed b s = true -> squeezed false s = true.
Proof. destruct b; [apply squeezed_weaken | easy]. Qed.

Lemma squeezed_lstrip (s : pystr) :
  forall b, squeezed b s = true -> squeezed false (lstrip s) = true.
Proof.
  induction s as [|c t IH]; intros b H; simpl in *; [reflexivity|].
  destruct (isspace c) eqn:Hc.
  - apply andb_prop in H as [_ Ht]. now apply (IH true).
  - simpl. now rewrite Hc.
Qed.

Lemma squeezed_rstrip (s : pystr) :
  forall b, squeezed b s = true -> squeezed b (rstrip s) = true.
Proof.
  induction s as [|c t IH]; intros b H; simpl in *; [reflexivity|].
  destruct (isspace c) eqn:Hc.
  - apply andb_prop in H as [H Ht]. specialize (IH true Ht).
    destruct (rstrip t) as [|x t'] eqn:Hr; [reflexivity|].
    simpl in *. rewrite Hc. now rewrite H, IH.
  - specialize (IH false H).
    destruct (rstrip t) as [|x t'] eqn:Hr; simpl; now rewrite Hc.
Qed.

Lemma rstrip_cons_nonspace (c : codepoint) (t : pystr) :
  isspace c = false -> rstrip (c :: t) = c :: rstrip t.
Proof. intros Hc. simpl. rewrite Hc. now destruct (rstrip t). Qed.

Lemma lstrip_head (s : pystr) :
  lstrip s = [] \/ exists c t, lstrip s = c :: t /\ isspace c = false.
Proof.
  induction s as [|c t IH]; simpl; [now left|].
  destruct (isspace c) eqn:Hc; [exact IH|].
  right. now exists c, t.
Qed.

Lemma rstrip_idem (s : pystr) : rstrip (rstrip s) = rstrip s.
Proof.
  induction s as [|c t IH]; simpl; [reflexivity|].
  destruct (rstrip t) as [|x t'] eqn:Hr.
  - destruct (isspace c) eqn:Hc; simpl; [reflexivity | now rewrite Hc].
  - change (rstrip (c :: x :: t')) with
      (match rstrip (x :: t') with
       | [] => if isspace c then [] else [c]
       | t'' => c :: t''
       end).
    now rewrite IH.
Qed.

Lemma lstrip_strip (s : pystr) : lstrip (strip s) = strip s.
Proof.
  unfold strip. destruct (lstrip_head s) as [H | (c & t & H & Hc)]; rewrite H.
  - reflexivity.
  - rewrite (rstrip_cons_nonspace c t Hc). simpl. now rewrite Hc.
Qed.

Lemma strip_idem (s : pystr) : strip (strip s) = strip s.
Proof.
  unfold strip at 1. rewrite lstrip_strip. unfold strip. apply rstrip_idem.
Qed.

Lemma strip_squeezed (s : pystr) :
  squeezed false s = true -> squeezed false (strip s) = true.
Proof.
  intros H. unfold strip. apply squeezed_rstrip. now apply squeezed_lstrip with false.
Qed.

(** The cleaned text has no whitespace but single spaces between words. *)
Lemma clean_cell_squeezed (x : cell) : squeezed false (clean_cell x) = true.
Proof. unfold clean_cell. apply strip_squeezed, sub_runs_squeezed. Qed.

(** The cleaned text neither starts nor ends with whitespace. *)
Lemma clean_cell_stripped (x : cell) : strip (clean_cell x) = clean_cell x.
Proof. unfold clean_cell. apply strip_idem. Qed.

(** On a cleaned text the substitution of line 82 finds only single
    spaces and puts them back. *)
Lemma re_sub_ws_cleaned (x : cell) :
  re_sub_ws (clean_cell x) = clean_cell x.
Proof.
  unfold re_sub_ws. apply squeezed_sub_runs, clean_cell_squeezed.
Qed.

End Normalizer.

(** C8. The Row Normalizer is idempotent: cleaning a cell that holds an
    already cleaned text gives that text again. *)
Theorem clean_cell_idempotent (x : cell) :
  clean_cell (Str (clean_cell x)) = clean_cell x.
Proof.
  unfold clean_cell at 1. simpl py_str.
  rewrite re_sub_ws_cleaned. apply clean_cell_stripped.
Qed.

(** The same for line 82 as a whole, on a frame. *)
Lemma applymap_clean_twice (df : DataFrame) :
  applymap clean_cell (applymap clean_cell df) = applymap clean_cell df.
Proof.
  unfold applymap. simpl. f_equal. rewrite map_map.
  apply map_ext. intros r. rewrite map_map.
  apply map_ext. intros x. f_equal.
  unfold clean_cell at 1. simpl py_str.
  rewrite re_sub_ws_cleaned. apply clean_cell_stripped.
Qed.

(** Line 65 followed by line 82 on a cell: an empty text becomes the
    text of [pd.NA], any other text is cleaned as it is. *)
Lemma clean_after_replace (s : pystr) :
  clean_cell (replace_empty (Str s)) =
  match s with
  | [] => lit "<NA>"
  | _ => strip (re_sub_ws s)
  end.
Proof. destruct s; reflexivity. Qed.

(** On a [str] the cleaning never touches [pd.NA]: the empty text stays
    empty. *)
Lemma clean_cell_empty_str : clean_cell (Str []) = [].
Proof. reflexivity. Qed.

(** * The loop body (lines 64-90) *)

Section Loop.

Variables (ntables idx : nat).

Lemma pystr_eqb_refl (s : pystr) : pystr_eqb s s = true.
Proof.
  induction s as [|c t IH]; simpl; [reflexivity|].
  unfold codepoint_eqb. now rewrite N.eqb_refl.
Qed.

Lemma pystr_eqb_eq (a b : pystr) : pystr_eqb a b = true <-> a = b.
Proof.
  split; [|intros ->; apply pystr_eqb_refl].
  revert b. induction a as [|x a IH]; intros [|y b]; simpl; try easy.
  intros H. apply andb_prop in H as [Hx Hab].
  apply N.eqb_eq in Hx. f_equal; [exact Hx | now apply IH].
Qed.

Lemma shape1_prepared (tbl : DataFrame) : shape1 (prepared tbl) = shape1 tbl.
Proof. reflexivity. Qed.

Lemma len_prepared_le (tbl : DataFrame) : len (prepared tbl) <= len tbl.
Proof.
  unfold prepared, len, dropna_all, replace_empty_na. simpl.
  etransitivity; [apply filter_length_le|]. now rewrite length_map.
Qed.

(** Line 65 and 66 together: the rows that stay are the rows with a cell
    that is not the empty text, in their order. *)
Lemma all_na_replace (r : list cell) :
  all_na (map replace_empty r) = forallb (fun x => is_empty_str x || isna x) r.
Proof.
  unfold all_na. induction r as [|x r IH]; simpl; [reflexivity|].
  rewrite IH. f_equal. destruct x as [|[|c s]]; reflexivity.
Qed.

Lemma rows_prepared (tbl : DataFrame) :
  rows (prepared tbl) =
  map (map replace_empty)
      (filter (fun r => negb (forallb (fun x => is_empty_str x || isna x) r))
              (rows tbl)).
Proof.
  unfold prepared, dropna_all, replace_empty_na. simpl.
  induction (rows tbl) as [|r rs IH]; simpl; [reflexivity|].
  rewrite all_na_replace.
  destruct (forallb _ r); simpl; now rewrite IH.
Qed.

Lemma select_rows_map (f : list cell -> bool) (rs : list (list cell)) :
  select_rows rs (map f rs) = filter f rs.
Proof.
  induction rs as [|r rs IH]; simpl; [reflexivity|].
  destruct (f r); now rewrite IH.
Qed.

Lemma index_of_TOMB : index_of (Name TOMB) (map Name fixed_header) = Some 0.
Proof. reflexivity. Qed.

Lemma process_table_skip (tbl : DataFrame) (df_list : list DataFrame) (w : world) :
  len (prepared tbl) < 2 \/ shape1 tbl < 6 ->
  process_table ntables idx tbl df_list w = (Ok df_list, w).
Proof.
  intros H. unfold process_table. fold (prepared tbl).
  rewrite shape1_prepared.
  replace ((len (prepared tbl) <? 2) || (shape1 tbl <? 6)) with true;
    [reflexivity|].
  symmetry. apply orb_true_iff.
  destruct H as [H | H]; [left | right]; now apply Nat.ltb_lt.
Qed.

Lemma process_table_warn (tbl : DataFrame) (df_list : list DataFrame) (w : world) :
  2 <= len (prepared tbl) -> 6 < shape1 tbl ->
  process_table ntables idx tbl df_list w =
  (Ok df_list,
   mk_world (temp_pdf w)
            (screen w ++ [warning (invalid_structure idx (shape1 tbl))])).
Proof.
  intros Hl Hc. unfold process_table. fold (prepared tbl).
  rewrite shape1_prepared.
  replace (len (prepared tbl) <? 2) with false
    by (symmetry; apply Nat.ltb_ge; lia).
  replace (shape1 tbl <? 6) with false
    by (symmetry; apply Nat.ltb_ge; lia).
  simpl orb. cbv iota.
  change (shape1 (iloc_from_1 (prepared tbl))) with (shape1 tbl).
  replace (shape1 tbl =? 6) with false
    by (symmetry; apply Nat.eqb_neq; lia).
  reflexivity.
Qed.

End Loop.

(** * The Record Filter (line 85) *)

Section Filter.

Lemma in_ranges_disjoint (rs1 rs2 : list (N * N)) (c : codepoint) :
  forallb (fun d => forallb (fun w => (snd d <? fst w)%N || (snd w <? fst d)%N)
                            rs2) rs1 = true ->
  in_ranges c rs1 = true -> in_ranges c rs2 = false.
Proof.
  intros Hdis H1. apply not_true_iff_false. intros H2.
  unfold in_ranges in *.
  apply existsb_exists in H1 as (d & Hd & Hcd).
  apply existsb_exists in H2 as (w & Hw & Hcw).
  rewrite forallb_forall in Hdis. specialize (Hdis d Hd).
  rewrite forallb_forall in Hdis. specialize (Hdis w Hw).
  unfold codepoint in c.
  rewrite andb_true_iff, !N.leb_le in Hcd, Hcw.
  rewrite orb_true_iff, !N.ltb_lt in Hdis. lia.
Qed.

Lemma isdecimal_not_space (c : codepoint) :
  isdecimal c = true -> isspace c = false.
Proof. apply in_ranges_disjoint. vm_compute. reflexivity. Qed.

Lemma ascii_digit_decimal (c : codepoint) :
  is_ascii_digit c = true -> isdecimal c = true.
Proof.
  unfold is_ascii_digit, isdecimal, in_ranges, decimal_ranges.
  intros H. cbn [existsb fst snd]. now rewrite H.
Qed.

Lemma skip_decimals_squeezed (t : pystr) :
  forall b, squeezed b t = true ->
  match skip_decimals t with
  | [] => true
  | [c'] => codepoint_eqb c' NEWLINE
  | _ => false
  end = forallb isdecimal t.
Proof.
  induction t as [|c t IH]; intros b H; [reflexivity|].
  cbn [skip_decimals forallb].
  destruct (isdecimal c) eqn:Hd.
  - simpl in H. rewrite (isdecimal_not_space c Hd) in H.
    now rewrite (IH false H).
  - simpl. destruct t as [|c' t']; [|reflexivity].
    destruct (codepoint_eqb c NEWLINE) eqn:Hn; [|reflexivity].
    apply N.eqb_eq in Hn. subst c. simpl in H. discriminate.
Qed.

(** On a cleaned text [^\d+$] cannot use the newline that [$] allows at
    the end: the match is exactly "one or more decimal digits". *)
Lemma match_digits_squeezed (s : pystr) (b : bool) :
  squeezed b s = true -> match_digits s = decimal_digits s.
Proof.
  destruct s as [|c t]; [reflexivity|]. intros H.
  unfold match_digits, decimal_digits. cbn [forallb].
  destruct (isdecimal c) eqn:Hd; [|reflexivity]. simpl in *.
  rewrite (isdecimal_not_space c Hd) in H.
  apply (skip_decimals_squeezed t false H).
Qed.

Lemma str_match_cleaned (r0 : list cell) :
  let r := map (fun x => Str (clean_cell x)) r0 in
  str_match_digits (nth 0 r NA) = decimal_digits (identifier r).
Proof.
  destruct r0 as [|x r0]; [reflexivity|]. simpl.
  unfold identifier. simpl.
  apply match_digits_squeezed with false, clean_cell_squeezed.
Qed.

Lemma record_filter_cleaned (df : DataFrame) :
  columns df = map Name fixed_header ->
  record_filter (applymap clean_cell df) =
  Ok (mk_df (map Name fixed_header)
            (filter (fun r => decimal_digits (identifier r))
                    (rows (applymap clean_cell df)))).
Proof.
  intros Hc. unfold record_filter, getitem.
  change (columns (applymap clean_cell df)) with (columns df).
  rewrite Hc, index_of_TOMB. unfold boolean_index.
  change (columns (applymap clean_cell df)) with (columns df). rewrite Hc.
  f_equal. f_equal. rewrite map_map.
  set (rs := rows (applymap clean_cell df)).
  rewrite <- (select_rows_map (fun r => decimal_digits (identifier r)) rs).
  f_equal. subst rs. unfold applymap. simpl. rewrite !map_map.
  apply map_ext. intros r0. apply str_match_cleaned.
Qed.

End Filter.

(** * The loop body on a table that passes both checks *)

Section Valid.

Variables (ntables idx : nat).

Lemma records_valid (tbl : DataFrame) :
  2 <= len (prepared tbl) -> shape1 tbl = 6 ->
  records tbl = filter (fun r => decimal_digits (identifier r)) (cleaned_rows tbl).
Proof.
  intros Hl Hc. unfold records. rewrite Hc.
  replace (len (prepared tbl) <? 2) with false
    by (symmetry; apply Nat.ltb_ge; lia).
  reflexivity.
Qed.

Lemma records_invalid (tbl : DataFrame) :
  len (prepared tbl) < 2 \/ shape1 tbl <> 6 -> records tbl = [].
Proof.
  intros H. unfold records.
  replace ((len (prepared tbl) <? 2) || negb (shape1 tbl =? 6)) with true;
    [reflexivity|].
  symmetry. apply orb_true_iff. destruct H as [H | H].
  - left. now apply Nat.ltb_lt.
  - right. apply negb_true_iff. now apply Nat.eqb_neq.
Qed.

Lemma process_table_valid (tbl : DataFrame) (df_list : list DataFrame) (w : world) :
  2 <= len (prepared tbl) -> shape1 tbl = 6 ->
  process_table ntables idx tbl df_list w =
  (Ok (appended tbl df_list),
   mk_world (temp_pdf w) (screen w ++ [progress (idx + 1) ntables])).
Proof.
  intros Hl Hc. unfold process_table. fold (prepared tbl).
  assert (E1 : ((len (prepared tbl) <? 2) || (shape1 (prepared tbl) <? 6)) = false).
  { rewrite shape1_prepared, Hc. apply orb_false_iff. split; [|reflexivity].
    apply Nat.ltb_ge. lia. }
  assert (E2 : (shape1 (iloc_from_1 (prepared tbl)) =? 6) = true).
  { change (shape1 (iloc_from_1 (prepared tbl))) with (shape1 tbl).
    now rewrite Hc. }
  rewrite E1, E2. cbv beta iota delta [negb].
  unfold bind, lift, set_columns.
  assert (E3 : (length fixed_header =? shape1 (iloc_from_1 (prepared tbl))) = true).
  { change (shape1 (iloc_from_1 (prepared tbl))) with (shape1 tbl).
    now rewrite Hc. }
  rewrite E3.
  rewrite record_filter_cleaned by reflexivity.
  change (rows (applymap clean_cell _)) with (cleaned_rows tbl).
  rewrite <- (records_valid tbl Hl Hc).
  unfold appended, empty, len, shape1, show, ret. simpl.
  destruct (records tbl); reflexivity.
Qed.

End Valid.

(** * The loop (line 63) and the combined frame (line 94) *)

Section Tables.

(** Whatever the table, the body of the loop ends normally, appends the
    records of the table when there are any, leaves the staged file
    alone and shows at most a warning or a progress update. *)
Lemma process_table_total (ntables idx : nat) (tbl : DataFrame)
      (df_list : list DataFrame) (w : world) :
  exists evs,
    process_table ntables idx tbl df_list w =
    (Ok (appended tbl df_list), mk_world (temp_pdf w) (screen w ++ evs))
    /\ Forall (fun e => is_error e = false /\ is_download e = false) evs.
Proof.
  destruct (Nat.lt_ge_cases (len (prepared tbl)) 2) as [Hl | Hl].
  { exists []. rewrite app_nil_r. split; [|constructor].
    rewrite process_table_skip by now left.
    unfold appended. rewrite records_invalid by now left.
    now destruct w. }
  destruct (Nat.lt_trichotomy (shape1 tbl) 6) as [Hc | [Hc | Hc]].
  - exists []. rewrite app_nil_r. split; [|constructor].
    rewrite process_table_skip by now right.
    unfold appended. rewrite records_invalid by (right; lia).
    now destruct w.
  - exists [progress (idx + 1) ntables]. split.
    + now apply process_table_valid.
    + repeat constructor.
  - exists [warning (invalid_structure idx (shape1 tbl))]. split.
    + rewrite process_table_warn by assumption.
      unfold appended. now rewrite records_invalid by (right; lia).
    + repeat constructor.
Qed.

Lemma flat_map_rows_appended (tbl : DataFrame) (df_list : list DataFrame) :
  flat_map rows (appended tbl df_list) = flat_map rows df_list ++ records tbl.
Proof.
  unfold appended. destruct (records tbl) as [|r rs] eqn:E.
  - now rewrite app_nil_r.
  - rewrite flat_map_app. simpl. now rewrite app_nil_r.
Qed.

Lemma appended_ok (tbl : DataFrame) (df_list : list DataFrame) :
  fragments_ok df_list -> fragments_ok (appended tbl df_list).
Proof.
  intros H. unfold appended. destruct (records tbl) eqn:E; [exact H|].
  apply Forall_app. split; [exact H|].
  constructor; [|constructor]. simpl. split; [reflexivity | discriminate].
Qed.

Lemma process_tables_total (ntables : nat) (tables : list DataFrame) :
  forall (idx : nat) (df_list : list DataFrame) (w : world),
  exists df_list' evs,
    process_tables ntables idx tables df_list w =
    (Ok df_list', mk_world (temp_pdf w) (screen w ++ evs))
    /\ flat_map rows df_list' = flat_map rows df_list ++ flat_map records tables
    /\ (fragments_ok df_list -> fragments_ok df_list')
    /\ Forall (fun e => is_error e = false /\ is_download e = false) evs.
Proof.
  induction tables as [|tbl rest IH]; intros idx df_list w.
  - exists df_list, []. simpl. rewrite !app_nil_r.
    repeat split; auto. now destruct w.
  - destruct (process_table_total ntables idx tbl df_list w) as (evs1 & H1 & F1).
    destruct (IH (S idx) (appended tbl df_list)
                 (mk_world (temp_pdf w) (screen w ++ evs1)))
      as (df_list' & evs2 & H2 & R2 & O2 & F2).
    exists df_list', (evs1 ++ evs2).
    simpl process_tables. unfold bind at 1. rewrite H1, H2. simpl.
    rewrite <- app_assoc. repeat split.
    + rewrite R2, flat_map_rows_appended. now rewrite <- app_assoc.
    + intros Hok. now apply O2, appended_ok.
    + apply Forall_app. now split.
Qed.

Lemma columns_concat_ok (df_list : list DataFrame) :
  fragments_ok df_list -> df_list <> [] ->
  columns (concat df_list) = map Name fixed_header.
Proof.
  intros H Hne. destruct df_list as [|d ds]; [congruence|].
  simpl. now inversion H as [|? ? [Hd _] _].
Qed.

End Tables.

(** * The claims about the loop *)

(** C2. A table with fewer than 2 rows or fewer than 6 columns is passed
    over: the loop body ends normally, [df_list] receives no fragment
    and nothing is shown (no warning, no error). *)
Theorem short_or_narrow_table_is_skipped
        (ntables idx : nat) (tbl : DataFrame)
        (df_list : list DataFrame) (w : world) :
  len tbl < 2 \/ shape1 tbl < 6 ->
  process_table ntables idx tbl df_list w = (Ok df_list, w).
Proof.
  intros [H | H]; apply process_table_skip.
  - left. pose proof (len_prepared_le tbl). lia.
  - now right.
Qed.

Lemma short_or_narrow_table_is_skipped_witness :
  (len (from_grid five_columns) < 2 \/ shape1 (from_grid five_columns) < 6)
  /\ process_table 1 0 (from_grid five_columns) [] w0 = (Ok [], w0).
Proof.
  assert (H : len (from_grid five_columns) < 2
              \/ shape1 (from_grid five_columns) < 6)
    by (right; vm_compute; lia).
  split; [exact H|].
  exact (short_or_narrow_table_is_skipped 1 0 (from_grid five_columns) [] w0 H).
Defined.

(** C3, as the specification has it, fails on a table of five columns:
    line 69 passes over it before line 76 is reached, and no warning is
    shown. *)
Lemma five_columns_no_warning :
  shape1 (iloc_from_1 (prepared (from_grid five_columns))) = 5
  /\ 2 <= len (prepared (from_grid five_columns))
  /\ process_table 1 0 (from_grid five_columns) [] w0 = (Ok [], w0)
  /\ existsb is_warning
       (screen (snd (process_table 1 0 (from_grid five_columns) [] w0)))
     = false.
Proof. vm_compute. repeat split; try reflexivity; lia. Qed.

(** C3, amended. A table that keeps at least 2 rows once its blank rows
    are gone and has more than 6 columns is discarded: [df_list]
    receives nothing, the table has no records, and one warning is
    shown whose text carries the 1-based position of the table and its
    number of columns. *)
Theorem wide_table_is_warned
        (ntables idx : nat) (tbl : DataFrame)
        (df_list : list DataFrame) (w : world) :
  2 <= len (prepared tbl) ->
  6 < shape1 (iloc_from_1 (prepared tbl)) ->
  process_table ntables idx tbl df_list w =
  (Ok df_list,
   mk_world (temp_pdf w)
     (screen w ++
      [warning (u8 "⚠️ Tabela " ++ str_of_nat (idx + 1)
                ++ u8 ": Estrutura inválida ("
                ++ str_of_nat (shape1 (iloc_from_1 (prepared tbl)))
                ++ u8 " colunas)")]))
  /\ records tbl = [].
Proof.
  intros Hl Hc. change (shape1 (iloc_from_1 (prepared tbl))) with (shape1 tbl) in *.
  split.
  - now apply process_table_warn.
  - apply records_invalid. right. lia.
Qed.

Lemma wide_table_is_warned_witness :
  2 <= len (prepared (from_grid seven_columns))
  /\ 6 < shape1 (iloc_from_1 (prepared (from_grid seven_columns)))
  /\ process_table 1 0 (from_grid seven_columns) [] w0 =
     (Ok [], mk_world false
               [warning (u8 "⚠️ Tabela 1: Estrutura inválida (7 colunas)")]).
Proof.
  assert (Hl : 2 <= len (prepared (from_grid seven_columns)))
    by (vm_compute; lia).
  assert (Hc : 6 < shape1 (iloc_from_1 (prepared (from_grid seven_columns))))
    by (vm_compute; lia).
  split; [exact Hl|]. split; [exact Hc|].
  exact (proj1 (wide_table_is_warned 1 0 (from_grid seven_columns) [] w0 Hl Hc)).
Defined.

(** C4, as the specification has it, fails on a grid of three rows and
    six columns whose data rows are blank: the rows are counted after
    line 66, one row is left, and the table gives no fragment. *)
Lemma blank_data_rows_no_fragment :
  len (from_grid blank_rows) = 3
  /\ shape1 (iloc_from_1 (prepared (from_grid blank_rows))) = 6
  /\ process_table 1 0 (from_grid blank_rows) [] w0 = (Ok [], w0).
Proof. vm_compute. repeat split. Qed.

(** C4, amended. For a table that keeps at least 2 rows once its blank
    rows are gone and has exactly 6 columns, line 81 succeeds and gives
    a frame under the six fixed names, in their order, whose rows are
    the rows after the first that were kept, in their order.  The loop
    as a whole ends normally, every frame of [df_list] carries the fixed
    header, and the rows of the combined frame are the records of the
    tables, table after table. *)
Theorem valid_table_gives_fragment :
  (forall (ntables idx : nat) (tbl : DataFrame)
          (df_list : list DataFrame) (w : world),
     2 <= len (prepared tbl) ->
     shape1 (iloc_from_1 (prepared tbl)) = 6 ->
     set_columns fixed_header (iloc_from_1 (prepared tbl)) =
     Ok (mk_df (map Name [TOMB; ESPECIFICACAO; CLASSIFICACAO;
                          OBSERVACAO; RESPONSAVEL; LOCALIZACAO])
               (tl (map (map replace_empty)
                        (filter (fun r => negb (forallb (fun x => is_empty_str x || isna x) r))
                                (rows tbl)))))
     /\ exists df_list',
          process_table ntables idx tbl df_list w =
          (Ok df_list',
           mk_world (temp_pdf w) (screen w ++ [progress (idx + 1) ntables]))
          /\ Forall (fun d => In d df_list
                              \/ columns d = map Name fixed_header) df_list'
          /\ flat_map rows df_list' =
             flat_map rows df_list
             ++ filter (fun r => decimal_digits (identifier r))
                       (map (map (fun x => Str (clean_cell x)))
                            (tl (rows (prepared tbl)))))
  /\ (forall (tables : list DataFrame) (w : world),
        exists df_list w',
          process_tables (length tables) 0 tables [] w = (Ok df_list, w')
          /\ rows (concat df_list) = flat_map records tables
          /\ (df_list <> [] ->
              columns (concat df_list) = map Name fixed_header)).
Proof.
  split.
  - intros ntables idx tbl df_list w Hl Hc. split.
    + unfold set_columns. rewrite Hc. simpl Nat.eqb. cbv iota.
      unfold iloc_from_1. cbn [rows]. now rewrite rows_prepared.
    + change (shape1 (iloc_from_1 (prepared tbl))) with (shape1 tbl) in Hc.
      exists (appended tbl df_list).
      split; [now apply process_table_valid|]. split.
      * unfold appended. destruct (records tbl).
        -- apply Forall_forall. now left.
        -- apply Forall_app. split; [apply Forall_forall; now left|].
           constructor; [now right | constructor].
      * rewrite flat_map_rows_appended. f_equal. now apply records_valid.
  - intros tables w.
    destruct (process_tables_total (length tables) tables 0 [] w)
      as (df_list & evs & H & R & O & _).
    exists df_list, (mk_world (temp_pdf w) (screen w ++ evs)).
    split; [exact H|]. split; [exact R|].
    intros Hne. apply columns_concat_ok; [|exact Hne].
    apply O. constructor.
Qed.

Lemma valid_table_gives_fragment_witness :
  2 <= len (prepared (from_grid scenario_grid))
  /\ shape1 (iloc_from_1 (prepared (from_grid scenario_grid))) = 6
  /\ set_columns fixed_header (iloc_from_1 (prepared (from_grid scenario_grid))) =
     Ok (mk_df (map Name fixed_header)
               [ [Str (lit "12"); Str (lit "Chair"); Str (lit "Furniture"); NA;
                  Str (lit "Alice"); Str (lit "RoomA")];
                 [Str (lit "x"); Str (lit "Bad"); Str (lit "Row"); NA;
                  Str (lit "Bob"); Str (lit "RoomB")] ]).
Proof.
  assert (Hl : 2 <= len (prepared (from_grid scenario_grid)))
    by (vm_compute; lia).
  assert (Hc : shape1 (iloc_from_1 (prepared (from_grid scenario_grid))) = 6)
    by reflexivity.
  split; [exact Hl|]. split; [exact Hc|].
  exact (proj1 (proj1 valid_table_gives_fragment 1 0
                      (from_grid scenario_grid) [] w0 Hl Hc)).
Defined.

(** C10. Lines 65-66 come before the checks of line 69: of a grid the
    rows kept are the rows with a cell that is not the empty text, so a
    grid made of a header and blank data rows only, however many, is
    passed over without a word, as a table of fewer than 2 rows. *)
Theorem blank_rows_removed_before_checks :
  (forall grid : list (list pystr),
     rows (prepared (from_grid grid)) =
     map (map (fun s => replace_empty (Str s)))
         (filter (fun r => negb (forallb (fun s => pystr_eqb s []) r)) grid))
  /\ (forall (ntables idx : nat) (header : list pystr)
             (blanks : list (list pystr))
             (df_list : list DataFrame) (w : world),
        Forall (fun r => forallb (fun s => pystr_eqb s []) r = true) blanks ->
        len (from_grid (header :: blanks)) = S (length blanks)
        /\ len (prepared (from_grid (header :: blanks))) < 2
        /\ process_table ntables idx (from_grid (header :: blanks)) df_list w =
           (Ok df_list, w)).
Proof.
  assert (R : forall grid : list (list pystr),
     rows (prepared (from_grid grid)) =
     map (map (fun s => replace_empty (Str s)))
         (filter (fun r => negb (forallb (fun s => pystr_eqb s []) r)) grid)).
  { intros grid. rewrite rows_prepared. unfold from_grid. simpl rows.
    induction grid as [|r g IH]; [reflexivity|]. simpl.
    replace (forallb (fun x => is_empty_str x || isna x) (map Str r))
      with (forallb (fun s => pystr_eqb s []) r).
    - destruct (forallb _ r); simpl; rewrite IH; [reflexivity|].
      now rewrite map_map.
    - clear. induction r as [|s r IH]; simpl; [reflexivity|].
      rewrite IH. now destruct s. }
  split; [exact R|].
  intros ntables idx header blanks df_list w Hb.
  assert (Hlen : len (prepared (from_grid (header :: blanks))) < 2).
  { unfold len. rewrite R, length_map.
    cbn [filter].
    replace (filter _ blanks) with (@nil (list pystr)).
    - destruct (negb _); simpl; lia.
    - symmetry. induction Hb as [|r rs Hr _ IH]; [reflexivity|].
      simpl. now rewrite Hr. }
  split; [|split; [exact Hlen|]].
  - unfold len, from_grid. simpl. now rewrite length_map.
  - apply process_table_skip. now left.
Qed.

Lemma blank_rows_removed_before_checks_witness :
  Forall (fun r => forallb (fun s => pystr_eqb s []) r = true) (tl blank_rows)
  /\ len (from_grid blank_rows) = 3
  /\ process_table 1 0 (from_grid blank_rows) [] w0 = (Ok [], w0).
Proof.
  assert (Hb : Forall (fun r => forallb (fun s => pystr_eqb s []) r = true)
                      (tl blank_rows))
    by (repeat constructor).
  split; [exact Hb|].
  destruct (proj2 blank_rows_removed_before_checks 1 0
                  (hd [] blank_rows) (tl blank_rows) [] w0 Hb)
    as (Hl & _ & Hp).
  split; [exact Hl | exact Hp].
Defined.

(** C5. On the scenario of the specification the cell left empty in the
    grid does not come out as the empty text: line 65 turns it into
    [pd.NA], and [str(x)] of line 82 turns that into the four characters
    of its printed form. *)
Theorem empty_cell_comes_out_as_NA_text :
  clean_cell (replace_empty (Str [])) = lit "<NA>"
  /\ process_table 1 0 (from_grid scenario_grid) [] w0 =
     (Ok [mk_df (map Name fixed_header)
                [ [Str (lit "12"); Str (lit "Chair"); Str (lit "Furniture");
                   Str (lit "<NA>"); Str (lit "Alice"); Str (lit "RoomA")] ]],
      mk_world false [progress 1 1]).
Proof. split; vm_compute; reflexivity. Qed.

(** C1, as the specification has it, fails on an identifier written
    with a decimal digit outside ASCII: [\d] of a [str] pattern accepts
    U+0663, and the row is kept. *)
Lemma arabic_identifier_is_kept :
  ascii_digits arabic_three = false
  /\ process_table 1 0 (from_grid arabic_grid) [] w0 =
     (Ok [mk_df (map Name fixed_header)
                [ [Str arabic_three; Str (lit "Chair"); Str (lit "Furniture");
                   Str (lit "ok"); Str (lit "Alice"); Str (lit "RoomA")] ]],
      mk_world false [progress 1 1]).
Proof. split; vm_compute; reflexivity. Qed.

(** C1, amended. On a cleaned frame under the fixed header the filter
    of line 85 keeps, in their order, exactly the rows whose identifier
    is made of one or more Unicode decimal digits.  The ASCII digits are
    among them; the empty text and every text with a character that is
    not a decimal digit (a letter, a space) are rejected.  The rows that
    go are not reported: for a table that passes the checks the page
    receives the progress update and nothing else. *)
Theorem record_filter_keeps_decimal_identifiers :
  (forall df : DataFrame,
     columns df = map Name fixed_header ->
     exists out,
       record_filter (applymap clean_cell df) = Ok out
       /\ columns out = map Name fixed_header
       /\ rows out = filter (fun r => decimal_digits (identifier r))
                            (rows (applymap clean_cell df))
       /\ (forall r, In r (rows out) <->
                     In r (rows (applymap clean_cell df))
                     /\ decimal_digits (identifier r) = true))
  /\ (forall s, ascii_digits s = true -> decimal_digits s = true)
  /\ decimal_digits [] = false
  /\ (forall s c, In c s -> isdecimal c = false -> decimal_digits s = false)
  /\ (forall ntables idx tbl df_list w,
        2 <= len (prepared tbl) -> shape1 tbl = 6 ->
        screen (snd (process_table ntables idx tbl df_list w)) =
        screen w ++ [progress (idx + 1) ntables]).
Proof.
  split; [|split; [|split; [|split]]].
  - intros df Hc. eexists. split; [now apply record_filter_cleaned|].
    cbn [columns rows]. split; [reflexivity|]. split; [reflexivity|].
    intros r. apply filter_In.
  - intros [|c s]; [discriminate|]. unfold ascii_digits, decimal_digits.
    rewrite !forallb_forall. intros H x Hx. apply ascii_digit_decimal, H, Hx.
  - reflexivity.
  - intros s c Hin Hd. destruct s as [|c0 s0]; [reflexivity|].
    unfold decimal_digits. apply not_true_iff_false. intros H.
    rewrite forallb_forall in H. specialize (H c Hin). congruence.
  - intros ntables idx tbl df_list w Hl Hc.
    now rewrite process_table_valid.
Qed.

Lemma record_filter_keeps_decimal_identifiers_witness :
  columns (mk_df (map Name fixed_header) (map (map Str) (tl scenario_grid)))
    = map Name fixed_header
  /\ exists out,
       record_filter
         (applymap clean_cell
            (mk_df (map Name fixed_header) (map (map Str) (tl scenario_grid))))
       = Ok out
       /\ rows out =
          [ [Str (lit "12"); Str (lit "Chair"); Str (lit "Furniture");
             Str []; Str (lit "Alice"); Str (lit "RoomA")] ].
Proof.
  split; [reflexivity|].
  destruct (proj1 record_filter_keeps_decimal_identifiers
              (mk_df (map Name fixed_header) (map (map Str) (tl scenario_grid)))
              eq_refl)
    as (out & Hout & _ & Hrows & _).
  exists out. split; [exact Hout|]. rewrite Hrows. vm_compute. reflexivity.
Defined.

(** * Counting values (lines 104-123) *)

Section Counting.

Local Abbreviation keys := (map (@fst pystr nat)).

Lemma pystr_eqb_neq (a b : pystr) : pystr_eqb a b = false <-> a <> b.
Proof.
  rewrite <- pystr_eqb_eq. destruct (pystr_eqb a b); split; congruence.
Qed.

Lemma pystr_eqb_sym (a b : pystr) : pystr_eqb a b = pystr_eqb b a.
Proof.
  destruct (pystr_eqb a b) eqn:E.
  - apply pystr_eqb_eq in E. subst. symmetry. apply pystr_eqb_refl.
  - symmetry. apply pystr_eqb_neq. apply pystr_eqb_neq in E. congruence.
Qed.

Lemma tally_snoc (vs : list pystr) (x : pystr) :
  tally (vs ++ [x]) = bump x (tally vs).
Proof. unfold tally. now rewrite fold_left_app. Qed.

Lemma get_bump (v x : pystr) (acc : list (pystr * nat)) :
  get v (bump x acc) = get v acc + (if pystr_eqb v x then 1 else 0).
Proof.
  induction acc as [|[y n] t IH]; simpl.
  - destruct (pystr_eqb v x); reflexivity.
  - destruct (pystr_eqb x y) eqn:Exy; simpl.
    + apply pystr_eqb_eq in Exy. subst y.
      destruct (pystr_eqb v x); lia.
    + destruct (pystr_eqb v y) eqn:Evy; [|exact IH].
      apply pystr_eqb_eq in Evy. subst y.
      rewrite pystr_eqb_sym in Exy. rewrite Exy. lia.
Qed.

Lemma occurrences_snoc (v x : pystr) (vs : list pystr) :
  occurrences v (vs ++ [x]) =
  occurrences v vs + (if pystr_eqb v x then 1 else 0).
Proof.
  unfold occurrences. rewrite filter_app, length_app. simpl.
  destruct (pystr_eqb v x); reflexivity.
Qed.

Lemma get_tally (v : pystr) (vs : list pystr) :
  get v (tally vs) = occurrences v vs.
Proof.
  induction vs as [|x vs IH] using rev_ind; [reflexivity|].
  now rewrite tally_snoc, get_bump, occurrences_snoc, IH.
Qed.

Lemma keys_bump_in (x : pystr) (acc : list (pystr * nat)) :
  In x (keys acc) -> keys (bump x acc) = keys acc.
Proof.
  induction acc as [|[y n] t IH]; simpl; [easy|].
  intros H. destruct (pystr_eqb x y) eqn:E; simpl; [reflexivity|].
  apply pystr_eqb_neq in E. f_equal. apply IH.
  destruct H as [H | H]; [congruence | exact H].
Qed.

Lemma bump_fresh (x : pystr) (acc : list (pystr * nat)) :
  ~ In x (keys acc) -> bump x acc = acc ++ [(x, 1)].
Proof.
  induction acc as [|[y n] t IH]; simpl; [reflexivity|].
  intros H. destruct (pystr_eqb x y) eqn:E.
  - apply pystr_eqb_eq in E. subst. tauto.
  - f_equal. apply IH. tauto.
Qed.

Lemma occurrences_pos (v : pystr) (vs : list pystr) :
  In v vs <-> 0 < occurrences v vs.
Proof.
  unfold occurrences. induction vs as [|x vs IH]; simpl; [split; [easy|lia]|].
  destruct (pystr_eqb v x) eqn:E; simpl.
  - apply pystr_eqb_eq in E. subst. split; [lia | now left].
  - apply pystr_eqb_neq in E. rewrite <- IH. split; [|tauto].
    intros [H | H]; [congruence | exact H].
Qed.

Lemma first_pos_lt (v : pystr) (vs : list pystr) :
  In v vs -> first_pos v vs < length vs.
Proof.
  induction vs as [|x vs IH]; simpl; [easy|].
  intros H. destruct (pystr_eqb v x) eqn:E; [lia|].
  apply pystr_eqb_neq in E. destruct H as [H | H]; [congruence|].
  specialize (IH H). lia.
Qed.

Lemma first_pos_app_in (v : pystr) (vs ys : list pystr) :
  In v vs -> first_pos v (vs ++ ys) = first_pos v vs.
Proof.
  induction vs as [|x vs IH]; simpl; [easy|].
  intros H. destruct (pystr_eqb v x) eqn:E; [reflexivity|].
  apply pystr_eqb_neq in E. destruct H as [H | H]; [congruence|].
  now rewrite IH.
Qed.

Lemma first_pos_fresh (x : pystr) (vs : list pystr) :
  ~ In x vs -> first_pos x (vs ++ [x]) = length vs.
Proof.
  induction vs as [|y vs IH]; simpl.
  - now rewrite pystr_eqb_refl.
  - intros H. destruct (pystr_eqb x y) eqn:E.
    + apply pystr_eqb_eq in E. subst. tauto.
    + rewrite IH; tauto.
Qed.

Lemma StronglySorted_ext_in {A} (R R' : A -> A -> Prop) (l : list A) :
  StronglySorted R l ->
  (forall a b, In a l -> In b l -> R a b -> R' a b) ->
  StronglySorted R' l.
Proof.
  induction 1 as [|a l Hs IH Hf]; intros Himp; constructor.
  - apply IH. intros x y Hx Hy. apply Himp; now right.
  - rewrite Forall_forall in *. intros y Hy.
    apply Himp; [now left | now right | now apply Hf].
Qed.

Lemma StronglySorted_snoc {A} (R : A -> A -> Prop) (l : list A) (x : A) :
  StronglySorted R l -> Forall (fun a => R a x) l ->
  StronglySorted R (l ++ [x]).
Proof.
  induction 1 as [|a l Hs IH Hf]; intros Hx; simpl.
  - repeat constructor.
  - inversion Hx as [|? ? Hax Hlx]; subst. constructor.
    + now apply IH.
    + apply Forall_app. split; [exact Hf | now constructor].
Qed.

Lemma StronglySorted_of_map {A B} (f : A -> B) (R : B -> B -> Prop) (l : list A) :
  StronglySorted R (map f l) ->
  StronglySorted (fun a b => R (f a) (f b)) l.
Proof.
  induction l as [|a l IH]; simpl; intros H; constructor;
    inversion H as [|? ? Hs Hf]; subst.
  - now apply IH.
  - now rewrite Forall_map in Hf.
Qed.

(** The tally holds one entry per distinct value, in the order in which
    the values are first met. *)
Lemma tally_keys (vs : list pystr) :
  NoDup (keys (tally vs))
  /\ (forall v, In v (keys (tally vs)) <-> In v vs)
  /\ StronglySorted (fun a b => first_pos a vs < first_pos b vs)
                    (keys (tally vs)).
Proof.
  induction vs as [|x vs (ND & Hin & Hs)] using rev_ind.
  - repeat split; try constructor; easy.
  - rewrite tally_snoc.
    assert (Hold : StronglySorted
                     (fun a b => first_pos a (vs ++ [x]) < first_pos b (vs ++ [x]))
                     (keys (tally vs))).
    { apply StronglySorted_ext_in with (1 := Hs). intros a b Ha Hb.
      rewrite !first_pos_app_in by now apply Hin. easy. }
    destruct (in_dec pystr_dec x vs) as [Hx | Hx].
    + rewrite keys_bump_in by now apply Hin.
      split; [exact ND|]. split; [|exact Hold].
      intros v. rewrite Hin, in_app_iff. simpl.
      split; [tauto|]. intros [H | [H | []]]; [exact H | now subst].
    + rewrite bump_fresh by now rewrite Hin.
      rewrite map_app. simpl. split; [|split].
      * apply NoDup_app; [exact ND | repeat constructor; easy |].
        intros a Ha [H | []]. subst. now apply Hin in Ha.
      * intros v. rewrite !in_app_iff, Hin. simpl. tauto.
      * apply StronglySorted_snoc; [exact Hold|].
        apply Forall_forall. intros a Ha. apply Hin in Ha.
        rewrite first_pos_app_in by exact Ha.
        rewrite first_pos_fresh by exact Hx.
        now apply first_pos_lt.
Qed.

Lemma get_In (v : pystr) (n : nat) (acc : list (pystr * nat)) :
  NoDup (keys acc) -> In (v, n) acc -> get v acc = n.
Proof.
  induction acc as [|[y m] t IH]; simpl; [easy|].
  intros ND H. inversion ND as [|? ? Hy ND']; subst.
  destruct H as [H | H].
  - inversion H; subst. now rewrite pystr_eqb_refl.
  - destruct (pystr_eqb v y) eqn:E; [|now apply IH].
    apply pystr_eqb_eq in E. subst y. exfalso. apply Hy.
    now apply (in_map fst) in H.
Qed.

Lemma In_get (v : pystr) (acc : list (pystr * nat)) :
  In v (keys acc) -> In (v, get v acc) acc.
Proof.
  induction acc as [|[y m] t IH]; simpl; [easy|].
  intros H. destruct (pystr_eqb v y) eqn:E.
  - apply pystr_eqb_eq in E. subst. now left.
  - apply pystr_eqb_neq in E. right. apply IH.
    destruct H as [H | H]; [congruence | exact H].
Qed.

(** The counter of a value is the number of its occurrences. *)
Lemma tally_entries (vs : list pystr) (v : pystr) (n : nat) :
  In (v, n) (tally vs) <-> In v vs /\ n = occurrences v vs.
Proof.
  destruct (tally_keys vs) as (ND & Hin & _). split.
  - intros H. split.
    + apply Hin. now apply (in_map fst) in H.
    + rewrite <- get_tally. symmetry. now apply get_In.
  - intros [Hv ->]. rewrite <- get_tally. apply In_get. now apply Hin.
Qed.

Lemma insert_desc_perm (e : pystr * nat) (l : list (pystr * nat)) :
  Permutation (insert_desc e l) (e :: l).
Proof.
  induction l as [|h t IH]; simpl; [reflexivity|].
  destruct (snd h <=? snd e); [reflexivity|].
  rewrite IH. apply perm_swap.
Qed.

Lemma sort_desc_perm (l : list (pystr * nat)) : Permutation (sort_desc l) l.
Proof.
  induction l as [|e l IH]; simpl; [reflexivity|].
  rewrite insert_desc_perm. now constructor.
Qed.

Lemma ranked_before_le (vs : list pystr) (a b : pystr * nat) :
  ranked_before vs a b -> snd b <= snd a.
Proof. unfold ranked_before. lia. Qed.

Lemma insert_desc_sorted (vs : list pystr) (e : pystr * nat)
      (l : list (pystr * nat)) :
  StronglySorted (ranked_before vs) l ->
  Forall (met_before vs e) l ->
  StronglySorted (ranked_before vs) (insert_desc e l).
Proof.
  induction 1 as [|h t Hs IH Hf]; intros Hm; simpl.
  - repeat constructor.
  - inversion Hm as [|? ? Hh Ht]; subst.
    destruct (snd h <=? snd e) eqn:E.
    + apply Nat.leb_le in E. constructor; [now constructor|].
      constructor.
      * unfold ranked_before. destruct (Nat.eq_dec (snd h) (snd e)); [|lia].
        right. split; [congruence | exact Hh].
      * rewrite Forall_forall in *. intros x Hx.
        pose proof (ranked_before_le (Hf x Hx)) as Hle.
        unfold ranked_before.
        destruct (Nat.eq_dec (snd x) (snd e)); [|lia].
        right. split; [congruence | now apply Ht].
    + apply Nat.leb_gt in E. constructor; [now apply IH|].
      rewrite Forall_forall in *. intros x Hx.
      apply (Permutation_in _ (insert_desc_perm e t)) in Hx.
      destruct Hx as [<- | Hx]; [now left | now apply Hf].
Qed.

(** The descending sort keeps entries of equal count in the order they
    had. *)
Lemma sort_desc_sorted (vs : list pystr) (l : list (pystr * nat)) :
  StronglySorted (met_before vs) l ->
  StronglySorted (ranked_before vs) (sort_desc l).
Proof.
  induction 1 as [|e l Hs IH Hf]; simpl; [constructor|].
  apply insert_desc_sorted; [exact IH|].
  rewrite Forall_forall in *. intros x Hx. apply Hf.
  now apply (Permutation_in _ (sort_desc_perm l)).
Qed.

Lemma value_counts_perm (s : list cell) :
  Permutation (value_counts s) (tally (present s)).
Proof. apply sort_desc_perm. Qed.

Lemma value_counts_sorted (s : list cell) :
  StronglySorted (ranked_before (present s)) (value_counts s).
Proof.
  apply sort_desc_sorted.
  destruct (tally_keys (present s)) as (_ & _ & Hs).
  now apply StronglySorted_of_map in Hs.
Qed.

Lemma value_counts_entries (s : list cell) (v : pystr) (n : nat) :
  In (v, n) (value_counts s) <->
  In v (present s) /\ n = occurrences v (present s).
Proof.
  rewrite <- tally_entries. split; apply Permutation_in.
  - apply value_counts_perm.
  - symmetry. apply value_counts_perm.
Qed.

Lemma value_counts_nodup (s : list cell) : NoDup (keys (value_counts s)).
Proof.
  destruct (tally_keys (present s)) as (ND & _).
  eapply Permutation_NoDup; [|exact ND].
  apply Permutation_map. symmetry. apply value_counts_perm.
Qed.

(** [nunique] is the number of distinct values. *)
Lemma nunique_distinct (s : list cell) :
  nunique s = length (nodup pystr_dec (present s)).
Proof.
  unfold nunique. destruct (tally_keys (present s)) as (ND & Hin & _).
  rewrite <- (length_map fst).
  apply Nat.le_antisymm; apply NoDup_incl_length;
    try exact ND; try apply NoDup_nodup;
    intros v Hv.
  - apply nodup_In. now apply Hin.
  - apply Hin. now apply nodup_In in Hv.
Qed.

Lemma nunique_value_counts (s : list cell) :
  length (value_counts s) = nunique s.
Proof. unfold nunique. apply Permutation_length, value_counts_perm. Qed.

End Counting.

(** * The summary (lines 97-123) *)

Section Summary.

Lemma getitem_fixed (name : pystr) (i : nat) (df : DataFrame) :
  columns df = map Name fixed_header ->
  index_of (Name name) (map Name fixed_header) = Some i ->
  has_column name df = true /\ getitem name df = Ok (column i df).
Proof.
  intros Hc Hi. unfold has_column, getitem. now rewrite Hc, Hi.
Qed.

Lemma summary_fixed_header (final_df : DataFrame) (w : world) :
  columns final_df = map Name fixed_header ->
  summary final_df w =
  (Ok tt,
   mk_world (temp_pdf w)
     (screen w ++
      [ subheader (u8 "📊 Resumo dos Dados Extraídos");
        metric (u8 "Total de Registros") (MInt (len final_df));
        metric (u8 "Classificações Únicas")
               (MInt (nunique (column 2 final_df)));
        metric (u8 "Responsáveis Únicos")
               (if nunique (column 4 final_df) =? 0 then MText (u8 "N/A")
                else MInt (nunique (column 4 final_df))) ]
      ++ (if 1 <? nunique (column 4 final_df)
          then [caption (u8 "Principais: "
                         ++ join (u8 ", ") (top3 (column 4 final_df)))]
          else [])
      ++ [ dataframe final_df;
           subheader (u8 "Classificações mais Frequentes");
           table (firstn 10 (value_counts (column 2 final_df)));
           subheader (u8 "Localizações mais Comuns");
           table (firstn 10 (value_counts (column 5 final_df))) ])).
Proof.
  intros Hc.
  destruct (getitem_fixed CLASSIFICACAO (i := 2) final_df Hc eq_refl) as [H2 G2].
  destruct (getitem_fixed RESPONSAVEL (i := 4) final_df Hc eq_refl) as [H4 G4].
  destruct (getitem_fixed LOCALIZACAO (i := 5) final_df Hc eq_refl) as [H5 G5].
  unfold summary. rewrite H2, H4, H5, G2, G4, G5.
  unfold bind, lift, show, ret. cbn [temp_pdf screen].
  destruct (1 <? nunique (column 4 final_df));
    cbn [temp_pdf screen]; rewrite <- ?app_assoc; reflexivity.
Qed.

End Summary.

(** C6, as the specification has it, fails on a combined frame with one
    responsible party: there is a most frequent party, and line 110
    keeps the script from naming it. *)
Lemma single_party_is_not_named :
  top3 (column 4 one_party) = [lit "Alice"]
  /\ existsb is_caption (screen (snd (summary one_party w0))) = false.
Proof. split; vm_compute; reflexivity. Qed.

Section TopThree.

Lemma value_counts_descending (s : list cell) :
  counts_descending (present s) (value_counts s).
Proof.
  split; [apply value_counts_nodup|]. split; [apply value_counts_entries|].
  eapply StronglySorted_ext_in; [apply value_counts_sorted|].
  intros a b _ _. apply ranked_before_le.
Qed.

Lemma counts_descending_length (vs : list pystr) (vc : list (pystr * nat)) :
  counts_descending vs vc -> length vc = length (tally vs).
Proof.
  intros (ND & Hin & _). apply Permutation_length, NoDup_Permutation.
  - now apply NoDup_map_inv with (f := fst).
  - destruct (tally_keys vs) as (ND' & _). now apply NoDup_map_inv with (f := fst).
  - intros [v n]. now rewrite Hin, tally_entries.
Qed.

(** Whatever the order among equal counts: of Alice, Alice, Bob, Carol
    the first is Alice, and Bob and Carol follow. *)
Lemma four_parties_top3 (vc : list (pystr * nat)) :
  counts_descending (present (column 4 four_parties)) vc ->
  exists second third,
    map fst (firstn 3 vc) = [lit "Alice"; second; third]
    /\ Permutation [second; third] [lit "Bob"; lit "Carol"].
Proof.
  intros Hvc. pose proof (counts_descending_length Hvc) as Hlen.
  destruct Hvc as (ND & Hin & Hs).
  change (length (tally (present (column 4 four_parties)))) with 3 in Hlen.
  destruct vc as [|a [|b [|c [|d vc]]]]; try discriminate. clear Hlen.
  assert (Hmem : forall x, In x [a; b; c] ->
            x = (lit "Alice", 2) \/ x = (lit "Bob", 1) \/ x = (lit "Carol", 1)).
  { intros [v n] Hx. apply Hin in Hx as [Hv ->].
    change (present (column 4 four_parties))
      with [lit "Alice"; lit "Alice"; lit "Bob"; lit "Carol"] in *.
    destruct Hv as [<- | [<- | [<- | [<- | []]]]]; auto. }
  inversion Hs as [|? ? Hs1 Ha]; subst.
  inversion Ha as [|? ? Hab Ha']; subst.
  inversion Ha' as [|? ? Hac _]; subst.
  inversion Hs1 as [|? ? _ Hb]; subst.
  inversion Hb as [|? ? Hbc _]; subst.
  inversion ND as [|? ? Na ND1]; subst.
  inversion ND1 as [|? ? Nb _]; subst.
  destruct (Hmem a (or_introl eq_refl)) as [-> | [-> | ->]];
    destruct (Hmem b (or_intror (or_introl eq_refl))) as [-> | [-> | ->]];
    destruct (Hmem c (or_intror (or_intror (or_introl eq_refl))))
      as [-> | [-> | ->]];
    simpl in Hab, Hac, Hbc; try lia;
    try (exfalso; apply Na; simpl; tauto);
    try (exfalso; apply Nb; simpl; tauto).
  - exists (lit "Bob"), (lit "Carol"). split; reflexivity.
  - exists (lit "Carol"), (lit "Bob"). split; [reflexivity | apply perm_swap].
Qed.

Lemma counts_descending_perm (vs : list pystr) (vc vc' : list (pystr * nat)) :
  counts_descending vs vc -> Permutation vc vc' ->
  StronglySorted (fun a b => snd b <= snd a) vc' ->
  counts_descending vs vc'.
Proof.
  intros (ND & Hin & _) Hp Hs. split; [|split; [|exact Hs]].
  - eapply Permutation_NoDup; [|exact ND]. now apply Permutation_map.
  - intros v n. rewrite <- Hin. split; apply Permutation_in;
      [now symmetry | exact Hp].
Qed.

(** Both orders of Bob and Carol have the larger count first: the
    library's contract does not choose between them. *)
Lemma equal_counts_order_is_open :
  counts_descending (present (column 4 four_parties))
                    [(lit "Alice", 2); (lit "Bob", 1); (lit "Carol", 1)]
  /\ counts_descending (present (column 4 four_parties))
                       [(lit "Alice", 2); (lit "Carol", 1); (lit "Bob", 1)].
Proof.
  assert (H : counts_descending (present (column 4 four_parties))
                [(lit "Alice", 2); (lit "Bob", 1); (lit "Carol", 1)])
    by apply (value_counts_descending (column 4 four_parties)).
  split; [exact H|].
  apply counts_descending_perm with (1 := H).
  - apply perm_skip, perm_swap.
  - repeat constructor.
Qed.

End TopThree.

(** C6, amended. On a combined frame under the fixed header the summary
    ends normally and shows the number of records, the number of
    distinct classifications and the number of distinct responsible
    parties; when there are at least two distinct responsible parties it
    names the first three of their [value_counts]: every party once
    with the number of its occurrences, the larger count first, the
    order among equal counts being left to the sort of the library.
    [nunique] is the number of distinct values.  For the parties Alice,
    Alice, Bob, Carol: 3 distinct, Alice named first and Bob and Carol
    after her, whatever the order among equal counts. *)
Theorem summary_reports_counts_and_top3 :
  (forall (final_df : DataFrame) (w : world),
     columns final_df = map Name fixed_header ->
     exists vc shown,
       counts_descending (present (column 4 final_df)) vc
       /\ summary final_df w =
          (Ok tt,
           mk_world (temp_pdf w)
             (screen w ++
              [ subheader (u8 "📊 Resumo dos Dados Extraídos");
                metric (u8 "Total de Registros")
                       (MInt (length (rows final_df)));
                metric (u8 "Classificações Únicas")
                       (MInt (nunique (column 2 final_df)));
                metric (u8 "Responsáveis Únicos")
                       (if nunique (column 4 final_df) =? 0
                        then MText (u8 "N/A")
                        else MInt (nunique (column 4 final_df))) ]
              ++ (if 1 <? nunique (column 4 final_df)
                  then [caption
                          (u8 "Principais: "
                           ++ join (u8 ", ") (map fst (firstn 3 vc)))]
                  else [])
              ++ dataframe final_df :: shown)))
  /\ (forall s : list cell,
        nunique s = length (nodup pystr_dec (present s))
        /\ forall vc, counts_descending (present s) vc ->
                      length vc = nunique s)
  /\ nunique (column 4 four_parties) = 3
  /\ (forall vc,
        counts_descending (present (column 4 four_parties)) vc ->
        exists second third,
          map fst (firstn 3 vc) = [lit "Alice"; second; third]
          /\ Permutation [second; third] [lit "Bob"; lit "Carol"])
  /\ (exists second third,
        Permutation [second; third] [lit "Bob"; lit "Carol"]
        /\ screen (snd (summary four_parties w0)) =
           [ subheader (u8 "📊 Resumo dos Dados Extraídos");
             metric (u8 "Total de Registros") (MInt 4);
             metric (u8 "Classificações Únicas") (MInt 1);
             metric (u8 "Responsáveis Únicos") (MInt 3);
             caption (u8 "Principais: "
                      ++ join (u8 ", ") [lit "Alice"; second; third]);
             dataframe four_parties;
             subheader (u8 "Classificações mais Frequentes");
             table [(lit "Furniture", 4)];
             subheader (u8 "Localizações mais Comuns");
             table [(lit "RoomA", 4)] ]).
Proof.
  split; [|split; [|split; [|split]]].
  - intros final_df w Hc. exists (value_counts (column 4 final_df)).
    eexists. split; [apply value_counts_descending|].
    rewrite (summary_fixed_header final_df w Hc). reflexivity.
  - intros s. split; [apply nunique_distinct|].
    intros vc Hvc. now rewrite (counts_descending_length Hvc).
  - vm_compute. reflexivity.
  - apply four_parties_top3.
  - destruct (four_parties_top3 (value_counts_descending (column 4 four_parties)))
      as (second & third & Htop & Hperm).
    exists second, third. split; [exact Hperm|].
    rewrite (summary_fixed_header four_parties w0 eq_refl).
    cbn [snd screen]. unfold top3. rewrite Htop. reflexivity.
Qed.

Lemma summary_reports_counts_and_top3_witness :
  columns four_parties = map Name fixed_header
  /\ exists vc shown,
       counts_descending (present (column 4 four_parties)) vc
       /\ summary four_parties w0 =
          (Ok tt,
           mk_world false
             ([ subheader (u8 "📊 Resumo dos Dados Extraídos");
                metric (u8 "Total de Registros") (MInt 4);
                metric (u8 "Classificações Únicas") (MInt 1);
                metric (u8 "Responsáveis Únicos") (MInt 3);
                caption (u8 "Principais: "
                         ++ join (u8 ", ") (map fst (firstn 3 vc))) ]
              ++ dataframe four_parties :: shown)).
Proof.
  split; [reflexivity|].
  destruct (proj1 summary_reports_counts_and_top3 four_parties w0 eq_refl)
    as (vc & shown & Hvc & H).
  exists vc, shown. split; [exact Hvc|]. rewrite H. reflexivity.
Defined.

(** * The processing pass (lines 38-156) *)

Section Pass.

Lemma bind_ok {A B} (m : M A) (k : A -> M B) (w w' : world) (a : A) :
  m w = (Ok a, w') -> bind m k w = k a w'.
Proof. intros H. unfold bind. now rewrite H. Qed.

Lemma bind_raise {A B} (m : M A) (k : A -> M B) (w w' : world) (e : exn) :
  m w = (Raise e, w') -> bind m k w = (Raise e, w').
Proof. intros H. unfold bind. now rewrite H. Qed.

(** The export block raises only when the workbook writer does, and
    then shows nothing; otherwise it shows the download button. *)
Lemma export_cases (E : env) (final_df : DataFrame) (w : world) :
  (exists e, export E final_df w = (Raise e, w))
  \/ (exists b, export E final_df w =
                (Ok tt, mk_world (temp_pdf w) (screen w ++ [b]))
                /\ is_error b = false).
Proof.
  unfold export. destruct (chosen_format E).
  - unfold bind, lift. destruct (to_excel E final_df) as [data | e].
    + right. eexists. unfold ret, show. now split.
    + left. now exists e.
  - right. eexists. unfold bind, ret, show. now split.
Qed.

(** Whatever comes from outside, the body of the [try] leaves a page
    that extends the one it found, adds no error message to it, and, if
    it raises, adds no download button either. *)
Lemma try_body_shape (E : env) (w : world) :
  exists r tp evs,
    try_body E w = (r, mk_world tp (screen w ++ evs))
    /\ Forall (fun ev => is_error ev = false) evs
    /\ (forall e, r = Raise e ->
                  Forall (fun ev => is_download ev = false) evs).
Proof.
  unfold try_body. unfold bind at 1. unfold save_upload.
  destruct (save E) as [e | e |].
  - exists (Raise e), (temp_pdf w), []. rewrite app_nil_r.
    destruct w. repeat split; constructor.
  - exists (Raise e), true, []. rewrite app_nil_r. repeat split; constructor.
  - unfold bind at 1. unfold lift at 1.
    destruct (read_pdf E) as [tables | e].
    2:{ exists (Raise e), true, []. rewrite app_nil_r. repeat split; constructor. }
    unfold bind at 1. unfold show at 1. cbn [temp_pdf screen].
    unfold bind at 1. unfold show at 1. cbn [temp_pdf screen].
    set (w1 := mk_world true _).
    destruct (process_tables_total (length tables) tables 0 [] w1)
      as (df_list & evs & Hp & _ & Hok & Hev).
    rewrite (bind_ok _ _ _ Hp). subst w1. cbn [temp_pdf screen].
    assert (Hev' : Forall (fun ev => is_error ev = false) evs)
      by (eapply Forall_impl; [|exact Hev]; now intros ? []).
    assert (Hev'' : Forall (fun ev => is_download ev = false) evs)
      by (eapply Forall_impl; [|exact Hev]; now intros ? []).
    destruct df_list as [|d ds].
    + eexists (Ok tt), true, _. unfold show. cbn [temp_pdf screen].
      rewrite <- !app_assoc. split; [reflexivity|]. split; [|discriminate].
      repeat (apply Forall_cons; [reflexivity|]).
      apply Forall_app. split; [exact Hev' | repeat constructor].
    + assert (Hc : columns (concat (d :: ds)) = map Name fixed_header).
      { apply columns_concat_ok; [apply Hok; constructor | discriminate]. }
      rewrite (bind_ok _ _ _ (summary_fixed_header _ _ Hc)).
      cbn [temp_pdf screen].
      match goal with
      | |- context [export E ?df ?w'] =>
          destruct (export_cases E df w') as [(e & Hx) | (b & Hx & Hb)];
            rewrite Hx
      end.
      * eexists (Raise e), true, _. rewrite <- !app_assoc.
        split; [reflexivity|]. split.
        -- repeat (apply Forall_cons; [reflexivity|]).
           apply Forall_app. split; [exact Hev'|].
           destruct (1 <? _); repeat constructor.
        -- intros _ _.
           repeat (apply Forall_cons; [reflexivity|]).
           apply Forall_app. split; [exact Hev''|].
           destruct (1 <? _); repeat constructor.
      * eexists (Ok tt), true, _. cbn [temp_pdf screen]. rewrite <- !app_assoc.
        split; [reflexivity|]. split; [|discriminate].
        repeat (apply Forall_cons; [reflexivity|]).
        apply Forall_app. split; [exact Hev'|].
        destruct (1 <? _); simpl; repeat constructor; exact Hb.
Qed.

Lemma finally_removes (w : world) : temp_pdf (snd (finally_remove w)) = false.
Proof. unfold finally_remove. destruct (temp_pdf w) eqn:H; simpl; easy. Qed.

Lemma finally_keeps_screen (w : world) :
  finally_remove w = (Ok tt, mk_world false (screen w)).
Proof.
  unfold finally_remove. destruct w as [[|] sc]; reflexivity.
Qed.

End Pass.

(** C9, as the specification has it, fails on an exception that is not
    an instance of [Exception]: line 151 does not catch it, no message
    is shown, and it leaves the pass (the file is removed all the
    same). *)
Lemma interrupt_is_not_caught :
  try_body interrupted w0 =
    (Raise (mk_exn BaseExceptionOnly (lit "KeyboardInterrupt")),
     mk_world true [])
  /\ processing_pass interrupted w0 =
     (Raise (mk_exn BaseExceptionOnly (lit "KeyboardInterrupt")),
      mk_world false [])
  /\ existsb is_error (screen (snd (processing_pass interrupted w0))) = false.
Proof. repeat split. Qed.

(** C9, amended. Every processing pass leaves no staged file behind,
    whether its body ends normally or raises, and whatever is raised.
    When the body raises an instance of [Exception], the pass itself
    ends normally: the exception is caught, one error message with its
    text is added to what the body had shown, and neither an earlier
    error message nor a download button is among what the body had
    shown.  When the body ends normally, no error message is shown.
    An exception that is not an instance of [Exception] is not caught:
    it leaves the pass, without a message. *)
Theorem pass_removes_file_and_reports_once :
  (forall (E : env) (w : world),
     temp_pdf (snd (processing_pass E w)) = false)
  /\ (forall (E : env) (w w1 : world) (e : exn),
        try_body E w = (Raise e, w1) ->
        is_Exception e = true ->
        exists evs,
          screen w1 = screen w ++ evs
          /\ Forall (fun ev => is_error ev = false /\ is_download ev = false) evs
          /\ processing_pass E w =
             (Ok tt,
              mk_world false
                (screen w ++ evs
                 ++ [error (u8 "❌ Erro inesperado: " ++ exn_str e)])))
  /\ (forall (E : env) (w w1 : world),
        try_body E w = (Ok tt, w1) ->
        exists evs,
          screen w1 = screen w ++ evs
          /\ Forall (fun ev => is_error ev = false) evs
          /\ processing_pass E w = (Ok tt, mk_world false (screen w ++ evs)))
  /\ (forall (E : env) (w w1 : world) (e : exn),
        try_body E w = (Raise e, w1) ->
        is_Exception e = false ->
        exists evs,
          screen w1 = screen w ++ evs
          /\ Forall (fun ev => is_error ev = false /\ is_download ev = false) evs
          /\ processing_pass E w =
             (Raise e, mk_world false (screen w ++ evs))).
Proof.
  split; [|split; [|split]].
  - intros E w. unfold processing_pass.
    destruct (try_body E w) as [r w1].
    destruct (except_Exception r w1) as [r' w2].
    pose proof (finally_removes w2) as H.
    now destruct (finally_remove w2).
  - intros E w w1 e Hb He.
    destruct (try_body_shape E w) as (r & tp & evs & Hs & Herr & Hdl).
    rewrite Hb in Hs. inversion Hs; subst r w1. clear Hs.
    exists evs. split; [reflexivity|]. split.
    + specialize (Hdl e eq_refl). rewrite Forall_forall in *.
      intros ev Hev. split; [now apply Herr | now apply Hdl].
    + unfold processing_pass. rewrite Hb. unfold except_Exception.
      rewrite He. unfold show. cbn [temp_pdf screen].
      rewrite finally_keeps_screen. cbn [screen]. now rewrite <- app_assoc.
  - intros E w w1 Hb.
    destruct (try_body_shape E w) as (r & tp & evs & Hs & Herr & _).
    rewrite Hb in Hs. inversion Hs; subst w1. clear Hs.
    exists evs. split; [reflexivity|]. split; [exact Herr|].
    unfold processing_pass. rewrite Hb. unfold except_Exception, ret.
    now rewrite finally_keeps_screen.
  - intros E w w1 e Hb He.
    destruct (try_body_shape E w) as (r & tp & evs & Hs & Herr & Hdl).
    rewrite Hb in Hs. inversion Hs; subst r w1. clear Hs.
    exists evs. split; [reflexivity|]. split.
    + specialize (Hdl e eq_refl). rewrite Forall_forall in *.
      intros ev Hev. split; [now apply Herr | now apply Hdl].
    + unfold processing_pass. rewrite Hb. unfold except_Exception.
      rewrite He. unfold lift. now rewrite finally_keeps_screen.
Qed.

Lemma pass_removes_file_and_reports_once_witness :
  try_body unreadable w0 =
    (Raise (mk_exn OtherException (lit "file has not been decrypted")),
     mk_world true [])
  /\ is_Exception (mk_exn OtherException (lit "file has not been decrypted"))
     = true
  /\ processing_pass unreadable w0 =
     (Ok tt,
      mk_world false
        [error (u8 "❌ Erro inesperado: file has not been decrypted")]).
Proof.
  assert (Hb : try_body unreadable w0 =
               (Raise (mk_exn OtherException (lit "file has not been decrypted")),
                mk_world true []))
    by reflexivity.
  split; [exact Hb|]. split; [reflexivity|].
  destruct (proj1 (proj2 pass_removes_file_and_reports_once)
                  unreadable w0 _ _ Hb eq_refl)
    as (evs & Hevs & _ & Hp).
  rewrite Hp. simpl in Hevs. subst evs. reflexivity.
Defined.

(** * The delimited text and the reader (lines 138-140) *)

Section Reader.

Variable ls : pystr.
Hypothesis ls_eol : end_of_line ls.

Lemma parse_quoted (f rest acc : pystr) (row : list pystr) :
  parse (double_quotes f ++ QUOTE :: rest) Quoted acc row =
  parse rest QuoteSeen (rev f ++ acc) row.
Proof.
  revert acc. induction f as [|c f IH]; intros acc; [reflexivity|].
  simpl double_quotes. destruct (codepoint_eqb c QUOTE) eqn:Eq.
  - apply N.eqb_eq in Eq. subst c. simpl. rewrite IH.
    now rewrite <- app_assoc.
  - simpl. rewrite Eq, IH. now rewrite <- app_assoc.
Qed.

Lemma double_quotes_plain (f : pystr) :
  existsb (fun c => codepoint_eqb c QUOTE) f = false -> double_quotes f = f.
Proof.
  induction f as [|c f IH]; simpl; [reflexivity|].
  intros H. apply orb_false_iff in H as [Hc Hf]. rewrite Hc. now rewrite IH.
Qed.

Lemma parse_unquoted (f rest acc : pystr) (row : list pystr) :
  existsb (fun c => codepoint_eqb c COMMA) f = false ->
  one_line f = true ->
  parse (f ++ rest) Unquoted acc row = parse rest Unquoted (rev f ++ acc) row.
Proof.
  revert acc. induction f as [|c f IH]; intros acc Hc Hl; [reflexivity|].
  simpl in Hc, Hl. apply orb_false_iff in Hc as [Hc Hf].
  apply andb_prop in Hl as [Hl Hl']. apply andb_prop in Hl as [Hn Hr].
  apply negb_true_iff in Hn, Hr.
  simpl. rewrite Hn, Hr, Hc, IH by assumption. now rewrite <- app_assoc.
Qed.

Lemma parse_eol (rest field : pystr) (row : list pystr) (st : reader_state) :
  st = Unquoted \/ st = QuoteSeen \/ (st = FieldStart /\ field = []) ->
  parse (ls ++ rest) st field row =
  end_row field row :: parse rest RowStart [] [].
Proof.
  intros Hst.
  destruct ls_eol as [-> | ->];
    destruct Hst as [-> | [-> | [-> ->]]]; reflexivity.
Qed.

Lemma needs_quotes_false (f : pystr) :
  needs_quotes ls f = false ->
  existsb (fun c => codepoint_eqb c COMMA) f = false
  /\ existsb (fun c => codepoint_eqb c QUOTE) f = false.
Proof.
  unfold needs_quotes. induction f as [|c f IH]; simpl; [easy|].
  intros H. apply orb_false_iff in H as [Hc Hf].
  apply orb_false_iff in Hc as [Hc _]. apply orb_false_iff in Hc as [Hc Hq].
  destruct (IH Hf) as [H1 H2]. now rewrite Hc, Hq, H1, H2.
Qed.

(** A written field is read back, up to the comma or the end of the
    line that follows it. *)
Lemma parse_field (f : pystr) (row : list pystr) (st : reader_state) :
  st = FieldStart \/ st = RowStart ->
  one_line f = true ->
  exists st' acc,
    (forall rest', parse (write_field ls f ++ rest') st [] row =
                   parse rest' st' acc row)
    /\ rev acc = f
    /\ (st' = Unquoted \/ st' = QuoteSeen
        \/ (st' = st /\ acc = [] /\ f = [])).
Proof.
  intros Hst Hl. unfold write_field.
  destruct (needs_quotes ls f) eqn:Hq.
  - exists QuoteSeen, (rev f). split; [|split].
    + intros rest'. rewrite <- app_comm_cons, <- app_assoc. simpl app.
      replace (parse (QUOTE :: double_quotes f ++ QUOTE :: rest') st [] row)
        with (parse (double_quotes f ++ QUOTE :: rest') Quoted [] row)
        by (destruct Hst as [-> | ->]; reflexivity).
      rewrite parse_quoted. now rewrite app_nil_r.
    + apply rev_involutive.
    + now right; left.
  - destruct (needs_quotes_false f Hq) as [Hc Hqq].
    rewrite (double_quotes_plain f Hqq).
    destruct f as [|c f].
    + exists st, []. repeat split; auto.
    + exists Unquoted, (rev (c :: f)). split; [|split].
      * intros rest'. simpl in Hc, Hqq, Hl.
        apply orb_false_iff in Hc as [Hc Hf].
        apply orb_false_iff in Hqq as [Hqc Hqf].
        apply andb_prop in Hl as [Hl Hl'].
        apply andb_prop in Hl as [Hn Hr]. apply negb_true_iff in Hn, Hr.
        replace (parse ((c :: f) ++ rest') st [] row)
          with (parse (f ++ rest') Unquoted [c] row)
          by (destruct Hst as [-> | ->]; simpl; now rewrite Hn, Hr, Hqc, Hc).
        now rewrite parse_unquoted.
      * apply rev_involutive.
      * now left.
Qed.

Lemma parse_field_comma (f rest : pystr) (row : list pystr) (st : reader_state) :
  st = FieldStart \/ st = RowStart ->
  one_line f = true ->
  parse (write_field ls f ++ COMMA :: rest) st [] row =
  parse rest FieldStart [] (f :: row).
Proof.
  intros Hst Hl.
  destruct (parse_field f row Hst Hl) as (st' & acc & H & Hrev & Hc).
  rewrite H. destruct Hc as [-> | [-> | (-> & -> & ->)]].
  - simpl. now rewrite Hrev.
  - simpl. now rewrite Hrev.
  - destruct Hst as [-> | ->]; reflexivity.
Qed.

Lemma parse_field_eol (f rest : pystr) (row : list pystr) :
  one_line f = true ->
  parse (write_field ls f ++ ls ++ rest) FieldStart [] row =
  rev (f :: row) :: parse rest RowStart [] [].
Proof.
  intros Hl.
  destruct (parse_field f row (or_introl eq_refl) Hl)
    as (st' & acc & H & Hrev & Hc).
  rewrite H, parse_eol.
  - unfold end_row. now rewrite Hrev.
  - destruct Hc as [-> | [-> | (-> & -> & _)]]; auto.
Qed.

Lemma parse_fields (rest : pystr) (fs : list pystr) :
  forall (f : pystr) (row : list pystr) (st : reader_state),
  st = FieldStart \/ (st = RowStart /\ fs <> []) ->
  Forall (fun x => one_line x = true) (f :: fs) ->
  parse (join [COMMA] (map (write_field ls) (f :: fs)) ++ ls ++ rest) st [] row =
  (rev row ++ f :: fs) :: parse rest RowStart [] [].
Proof.
  induction fs as [|g fs IH]; intros f row st Hst Hl;
    inversion Hl as [|? ? Hf Hfs]; subst.
  - destruct Hst as [-> | [_ Hne]]; [|congruence].
    simpl join. now rewrite parse_field_eol.
  - change (join [COMMA] (map (write_field ls) (f :: g :: fs)))
      with (write_field ls f ++ [COMMA]
            ++ join [COMMA] (map (write_field ls) (g :: fs))).
    rewrite <- !app_assoc. cbn [app].
    rewrite parse_field_comma; [|destruct Hst as [-> | [-> _]]; auto | exact Hf].
    rewrite (IH g (f :: row) FieldStart (or_introl eq_refl) Hfs).
    simpl rev. now rewrite <- app_assoc.
Qed.

Lemma write_row_fields (f g : pystr) (fs : list pystr) :
  write_row ls (f :: g :: fs) =
  join [COMMA] (map (write_field ls) (f :: g :: fs)) ++ ls.
Proof. now destruct f. Qed.

(** A written record of two fields or more is read back. *)
Lemma parse_row (r : list pystr) (rest : pystr) :
  2 <= length r -> Forall (fun x => one_line x = true) r ->
  parse (write_row ls r ++ rest) RowStart [] [] =
  r :: parse rest RowStart [] [].
Proof.
  intros Hlen Hl. destruct r as [|f [|g fs]]; simpl in Hlen; try lia.
  rewrite write_row_fields, <- app_assoc.
  rewrite parse_fields; [reflexivity | | exact Hl].
  right. split; [reflexivity | discriminate].
Qed.

Lemma parse_rows (rs : list (list pystr)) :
  Forall (fun r => 2 <= length r /\ Forall (fun x => one_line x = true) r) rs ->
  parse (flat_map (write_row ls) rs) RowStart [] [] = rs.
Proof.
  induction 1 as [|r rs [Hlen Hl] _ IH]; [reflexivity|].
  simpl flat_map. rewrite parse_row by assumption. now rewrite IH.
Qed.

End Reader.

(** * Reading the export back *)

Section RoundTrip.

Lemma squeezed_one_line (s : pystr) :
  forall b, squeezed b s = true -> one_line s = true.
Proof.
  induction s as [|c t IH]; intros b H; [reflexivity|].
  simpl in *. destruct (isspace c) eqn:Hc.
  - apply andb_prop in H as [H Ht]. apply andb_prop in H as [Hsp _].
    apply N.eqb_eq in Hsp. subst c. simpl. now apply IH with true.
  - rewrite (IH false H), andb_true_r.
    destruct (codepoint_eqb c NEWLINE) eqn:En.
    { apply N.eqb_eq in En. subst c. discriminate. }
    destruct (codepoint_eqb c CR) eqn:Er; [|reflexivity].
    apply N.eqb_eq in Er. subst c. discriminate.
Qed.

Lemma flat_map_of_map {A B C} (g : A -> B) (f : B -> list C) (l : list A) :
  flat_map f (map g l) = flat_map (fun x => f (g x)) l.
Proof.
  induction l as [|x l IH]; [reflexivity|].
  cbn [map flat_map]. now rewrite IH.
Qed.

Lemma fields_eqb_refl (a : list pystr) : fields_eqb a a = true.
Proof.
  induction a as [|x a IH]; simpl; [reflexivity|].
  now rewrite pystr_eqb_refl.
Qed.

Lemma final_record_fields (r : list cell) :
  final_record r ->
  2 <= length (map csv_value r)
  /\ Forall (fun x => one_line x = true) (map csv_value r)
  /\ map Str (map csv_value r) = r.
Proof.
  intros [Hlen Hc]. rewrite length_map. split; [lia|]. clear Hlen.
  induction Hc as [|x r (y & ->) _ [IH1 IH2]]; simpl.
  - split; [constructor | reflexivity].
  - split.
    + constructor; [|exact IH1].
      apply squeezed_one_line with false, clean_cell_squeezed.
    + now rewrite IH2.
Qed.

(** The text written for a frame of final records under the fixed
    header is read back as that frame. *)
Lemma read_csv_to_csv (ls : pystr) (df : DataFrame) :
  end_of_line ls ->
  columns df = map Name fixed_header ->
  Forall final_record (rows df) ->
  read_csv fixed_header (to_csv ls df) = Some df.
Proof.
  intros Hls Hc Hr. unfold read_csv, to_csv. rewrite Hc.
  replace (map csv_label (map Name fixed_header)) with fixed_header
    by reflexivity.
  rewrite (parse_row Hls (r := fixed_header)); [|vm_compute; lia|repeat constructor].
  rewrite <- (flat_map_of_map (map csv_value) (write_row ls)).
  rewrite (parse_rows Hls).
  - rewrite fields_eqb_refl. destruct df as [cols rs]. simpl in *. subst cols.
    f_equal. f_equal. rewrite map_map.
    induction Hr as [|r rs Hrec _ IH]; simpl; [reflexivity|].
    rewrite IH. f_equal. apply final_record_fields, Hrec.
  - apply Forall_map. eapply Forall_impl; [|exact Hr].
    intros r Hrec. destruct (final_record_fields Hrec) as (H1 & H2 & _).
    now split.
Qed.

(** The records of a rectangular table are final records. *)
Lemma records_final (tbl : DataFrame) :
  rectangular tbl -> Forall final_record (records tbl).
Proof.
  intros Hrect. unfold records.
  destruct ((len (prepared tbl) <? 2) || negb (shape1 tbl =? 6)) eqn:E;
    [constructor|].
  apply orb_false_iff in E as [_ E]. apply negb_false_iff, Nat.eqb_eq in E.
  apply Forall_forall. intros r Hr. apply filter_In in Hr as [Hr _].
  unfold cleaned_rows in Hr. apply in_map_iff in Hr as (r1 & <- & Hr1).
  assert (Hin : In r1 (rows (prepared tbl)))
    by (destruct (rows (prepared tbl)); [easy | now right]).
  rewrite rows_prepared in Hin. apply in_map_iff in Hin as (r0 & <- & Hr0).
  apply filter_In in Hr0 as [Hr0 _].
  unfold rectangular in Hrect. rewrite Forall_forall in Hrect.
  specialize (Hrect r0 Hr0). unfold shape1 in E.
  split.
  - rewrite !length_map. congruence.
  - apply Forall_map, Forall_forall. intros x _. now exists x.
Qed.

Lemma all_records_final (tables : list DataFrame) :
  Forall rectangular tables ->
  Forall final_record (flat_map records tables).
Proof.
  induction 1 as [|tbl rest Hr _ IH]; simpl; [constructor|].
  apply Forall_app. split; [now apply records_final | exact IH].
Qed.

End RoundTrip.

(** C7. The text the CSV branch exports for the combined frame of a
    pass, read back under the fixed header, is the combined frame
    again: the same six labels, the same records in the same order,
    every field the same text.  The frame is the one the loop builds
    from rectangular tables when at least one record is left, and the
    line terminator is that of a POSIX host or of Windows. *)
Theorem export_csv_reads_back
        (tables : list DataFrame) (w w' : world)
        (df_list : list DataFrame) (ls : pystr) :
  Forall rectangular tables ->
  end_of_line ls ->
  process_tables (length tables) 0 tables [] w = (Ok df_list, w') ->
  df_list <> [] ->
  read_csv fixed_header (to_csv ls (concat df_list)) = Some (concat df_list).
Proof.
  intros Hrect Hls Hp Hne.
  destruct (process_tables_total (length tables) tables 0 [] w)
    as (df_list0 & evs & Hp0 & Hrows & Hok & _).
  rewrite Hp in Hp0. inversion Hp0; subst df_list0. clear Hp0.
  apply read_csv_to_csv; [exact Hls | |].
  - apply columns_concat_ok; [apply Hok; constructor | exact Hne].
  - change (rows (concat df_list)) with (flat_map rows df_list).
    rewrite Hrows. simpl. now apply all_records_final.
Qed.

Lemma export_csv_reads_back_witness :
  Forall rectangular [from_grid scenario_grid]
  /\ end_of_line [NEWLINE]
  /\ process_tables 1 0 [from_grid scenario_grid] [] w0 =
     (Ok [mk_df (map Name fixed_header)
                [ [Str (lit "12"); Str (lit "Chair"); Str (lit "Furniture");
                   Str (lit "<NA>"); Str (lit "Alice"); Str (lit "RoomA")] ]],
      mk_world false [progress 1 1])
  /\ read_csv fixed_header
       (to_csv [NEWLINE]
          (concat
             [mk_df (map Name fixed_header)
                [ [Str (lit "12"); Str (lit "Chair"); Str (lit "Furniture");
                   Str (lit "<NA>"); Str (lit "Alice"); Str (lit "RoomA")] ]]))
     = Some (concat
               [mk_df (map Name fixed_header)
                  [ [Str (lit "12"); Str (lit "Chair"); Str (lit "Furniture");
                     Str (lit "<NA>"); Str (lit "Alice"); Str (lit "RoomA")] ]]).
Proof.
  assert (Hrect : Forall rectangular [from_grid scenario_grid])
    by (repeat constructor).
  assert (Hls : end_of_line [NEWLINE]) by now left.
  assert (Hp : process_tables (length [from_grid scenario_grid]) 0
                 [from_grid scenario_grid] [] w0 =
     (Ok [mk_df (map Name fixed_header)
                [ [Str (lit "12"); Str (lit "Chair"); Str (lit "Furniture");
                   Str (lit "<NA>"); Str (lit "Alice"); Str (lit "RoomA")] ]],
      mk_world false [progress 1 1]))
    by (vm_compute; reflexivity).
  split; [exact Hrect|]. split; [exact Hls|]. split; [exact Hp|].
  apply (@export_csv_reads_back [from_grid scenario_grid] w0 _ _ [NEWLINE]
           Hrect Hls Hp).
  discriminate.
Defined.

(** * What the loop shows, and what it collects *)

Section LoopPage.

Lemma process_table_events (ntables idx : nat) (tbl : DataFrame)
      (df_list : list DataFrame) (w : world) :
  process_table ntables idx tbl df_list w =
  (Ok (appended tbl df_list),
   mk_world (temp_pdf w) (screen w ++ table_events ntables idx tbl)).
Proof.
  unfold table_events, passes_checks, too_wide.
  destruct (Nat.lt_ge_cases (len (prepared tbl)) 2) as [Hl | Hl].
  { replace (2 <=? len (prepared tbl)) with false
      by (symmetry; apply Nat.leb_gt; lia).
    simpl. rewrite app_nil_r, process_table_skip by now left.
    unfold appended. rewrite records_invalid by now left. now destruct w. }
  replace (2 <=? len (prepared tbl)) with true
    by (symmetry; apply Nat.leb_le; lia).
  simpl andb.
  destruct (Nat.lt_trichotomy (shape1 tbl) 6) as [Hc | [Hc | Hc]].
  - replace (shape1 tbl =? 6) with false by (symmetry; apply Nat.eqb_neq; lia).
    replace (6 <? shape1 tbl) with false by (symmetry; apply Nat.ltb_ge; lia).
    rewrite app_nil_r, process_table_skip by now right.
    unfold appended. rewrite records_invalid by (right; lia). now destruct w.
  - rewrite Hc. simpl. now apply process_table_valid.
  - replace (shape1 tbl =? 6) with false by (symmetry; apply Nat.eqb_neq; lia).
    replace (6 <? shape1 tbl) with true by (symmetry; apply Nat.ltb_lt; lia).
    rewrite process_table_warn by assumption.
    unfold appended. now rewrite records_invalid by (right; lia).
Qed.

Lemma appended_app (tbl : DataFrame) (df_list : list DataFrame) :
  appended tbl df_list = df_list ++ appended tbl [].
Proof. unfold appended. destruct (records tbl); simpl; now rewrite ?app_nil_r. Qed.

Lemma process_tables_events (ntables : nat) (tables : list DataFrame) :
  forall (idx : nat) (df_list : list DataFrame) (w : world),
  exists added,
    process_tables ntables idx tables df_list w =
    (Ok (df_list ++ added),
     mk_world (temp_pdf w) (screen w ++ loop_events ntables idx tables))
    /\ fragments_ok added
    /\ flat_map rows added = flat_map records tables.
Proof.
  induction tables as [|tbl rest IH]; intros idx df_list w.
  - exists []. simpl. rewrite !app_nil_r. repeat split; [|constructor].
    now destruct w.
  - destruct (IH (S idx) (appended tbl df_list)
                 (mk_world (temp_pdf w) (screen w ++ table_events ntables idx tbl)))
      as (added & H & Hok & Hrows).
    exists (appended tbl [] ++ added).
    simpl process_tables. unfold bind at 1.
    rewrite process_table_events, H. cbn [temp_pdf screen loop_events].
    rewrite <- !app_assoc, (appended_app tbl df_list), <- app_assoc.
    repeat split.
    + apply Forall_app. split; [|exact Hok]. apply appended_ok. constructor.
    + rewrite flat_map_app, Hrows, flat_map_rows_appended. reflexivity.
Qed.

Lemma table_events_kinds (ntables idx : nat) (tbl : DataFrame) :
  Forall (fun e => is_warning e || is_progress e = true)
         (table_events ntables idx tbl).
Proof.
  unfold table_events.
  destruct (passes_checks tbl); [repeat constructor|].
  destruct (too_wide tbl); repeat constructor.
Qed.

Lemma loop_events_kinds (ntables : nat) (tables : list DataFrame) :
  forall idx, Forall (fun e => is_warning e || is_progress e = true)
                     (loop_events ntables idx tables).
Proof.
  induction tables as [|tbl rest IH]; intros idx; [constructor|].
  simpl. apply Forall_app. split; [apply table_events_kinds | apply IH].
Qed.

(** A list of fragments, none of them empty, is empty when it has no
    rows. *)
Lemma fragments_none (added : list DataFrame) :
  fragments_ok added -> flat_map rows added = [] -> added = [].
Proof.
  intros Hok Hrows. destruct added as [|d ds]; [reflexivity|].
  inversion Hok as [|? ? [_ Hd] _]; subst. simpl in Hrows.
  apply app_eq_nil in Hrows as [Hr _]. congruence.
Qed.

Lemma concat_combined (added : list DataFrame) (tables : list DataFrame) :
  fragments_ok added -> added <> [] ->
  flat_map rows added = flat_map records tables ->
  concat added = combined tables.
Proof.
  intros Hok Hne Hrows. unfold combined. rewrite <- Hrows.
  rewrite <- (columns_concat_ok Hok Hne). reflexivity.
Qed.

End LoopPage.

Section LoopCounts.

Lemma checks_exclusive (tbl : DataFrame) :
  passes_checks tbl = true -> too_wide tbl = false.
Proof.
  unfold passes_checks, too_wide. intros H.
  apply andb_prop in H as [_ H]. apply Nat.eqb_eq in H. rewrite H.
  apply andb_false_r.
Qed.

Lemma loop_events_counts (ntables : nat) (tables : list DataFrame) :
  forall idx,
    length (filter is_progress (loop_events ntables idx tables))
    = length (filter passes_checks tables)
    /\ length (filter is_warning (loop_events ntables idx tables))
       = length (filter too_wide tables).
Proof.
  induction tables as [|tbl rest IH]; intros idx; [now split|].
  destruct (IH (S idx)) as [IHp IHw].
  cbn [loop_events filter]. rewrite !filter_app, !length_app, IHp, IHw.
  unfold table_events.
  destruct (passes_checks tbl) eqn:Hp.
  - rewrite (checks_exclusive tbl Hp). now split.
  - destruct (too_wide tbl); now split.
Qed.

Lemma loop_events_progress (ntables k : nat) (tables : list DataFrame) :
  forall idx,
    In (progress k ntables) (loop_events ntables idx tables) <->
    exists i tbl, nth_error tables i = Some tbl
                  /\ k = idx + i + 1 /\ passes_checks tbl = true.
Proof.
  induction tables as [|tbl rest IH]; intros idx.
  - simpl. split; [easy|]. intros ([|i] & tbl & H & _); discriminate.
  - cbn [loop_events]. rewrite in_app_iff, IH. split.
    + intros [H | (i & t & Hn & Hk & Hp)].
      * exists 0, tbl. unfold table_events in H.
        destruct (passes_checks tbl) eqn:Hp.
        -- destruct H as [H | []]. inversion H. repeat split; lia.
        -- destruct (too_wide tbl); [destruct H as [H | []]; discriminate | easy].
      * exists (S i), t. repeat split; [exact Hn | lia | exact Hp].
    + intros ([|i] & t & Hn & Hk & Hp).
      * left. simpl in Hn. inversion Hn; subst t. unfold table_events.
        rewrite Hp. left. f_equal. lia.
      * right. exists i, t. repeat split; [exact Hn | lia | exact Hp].
Qed.

End LoopCounts.

(** X1. The loop never raises, whatever the tables (ragged rows, missing
    cells, no columns at all): the length mismatch of line 81 and the
    missing key of line 85 cannot happen.  It leaves the staged file
    alone, keeps the fragments collected so far and adds only frames
    under the fixed header that have a row, and it shows nothing but
    progress updates, one per table that passes the checks of lines 69
    and 76, and warnings, one per table of more than six columns that
    has its two rows. *)
Theorem loop_never_raises
        (ntables idx : nat) (tables : list DataFrame)
        (df_list : list DataFrame) (w : world) :
  exists added evs,
    process_tables ntables idx tables df_list w =
    (Ok (df_list ++ added), mk_world (temp_pdf w) (screen w ++ evs))
    /\ Forall (fun d => columns d = map Name fixed_header /\ rows d <> [])
              added
    /\ Forall (fun e => is_warning e || is_progress e = true) evs
    /\ length (filter is_progress evs) = length (filter passes_checks tables)
    /\ length (filter is_warning evs) = length (filter too_wide tables).
Proof.
  destruct (process_tables_events ntables tables idx df_list w)
    as (added & H & Hok & _).
  exists added, (loop_events ntables idx tables).
  split; [exact H|]. split; [exact Hok|].
  split; [apply loop_events_kinds|]. apply loop_events_counts.
Qed.

(** X2. The progress bar is set to (i+1)/n exactly for the tables, at
    position i of n, that pass the checks of lines 69 and 76; a table
    that is passed over or warned about does not move it.  So the bar
    reaches n/n if and only if the last table passes the checks. *)
Theorem progress_marks_valid_tables (tables : list DataFrame) (w : world) :
  exists df_list evs,
    process_tables (length tables) 0 tables [] w =
    (Ok df_list, mk_world (temp_pdf w) (screen w ++ evs))
    /\ (forall k,
          In (progress k (length tables)) evs <->
          exists tbl, 1 <= k /\ nth_error tables (k - 1) = Some tbl
                      /\ passes_checks tbl = true).
Proof.
  destruct (process_tables_events (length tables) tables 0 [] w)
    as (added & H & _ & _).
  exists added, (loop_events (length tables) 0 tables).
  split; [exact H|]. intros k. rewrite loop_events_progress. split.
  - intros (i & tbl & Hn & Hk & Hp). exists tbl.
    replace (k - 1) with i by lia. repeat split; [lia | exact Hn | exact Hp].
  - intros (tbl & Hk & Hn & Hp). exists (k - 1), tbl.
    repeat split; [exact Hn | lia | exact Hp].
Qed.

(** * A pass whose upload is staged and read *)

Section ReadPass.

Variables (E : env) (tables : list DataFrame).
Hypothesis staged : save E = Saved.
Hypothesis extracted : read_pdf E = Ok tables.

Lemma try_body_loop (w : world) :
  exists added,
    fragments_ok added
    /\ flat_map rows added = flat_map records tables
    /\ try_body E w =
       match added with
       | _ :: _ =>
           (summary (concat added) ;;; export E (concat added))
             (mk_world true (screen w ++ opening tables))
       | [] =>
           show (warning (u8 "⚠️ Nenhum dado válido encontrado após processamento"))
                (mk_world true (screen w ++ opening tables))
       end.
Proof.
  destruct (process_tables_events (length tables) tables 0 []
              (mk_world true
                 (screen w ++
                  [ success (u8 "✅ " ++ str_of_nat (length tables)
                             ++ u8 " tabelas detectadas");
                    progress 0 1 ])))
    as (added & H & Hok & Hrows).
  exists added. split; [exact Hok|]. split; [exact Hrows|].
  unfold try_body. unfold bind at 1. unfold save_upload. rewrite staged.
  unfold bind at 1. unfold lift at 1. rewrite extracted.
  unfold bind at 1. unfold show at 1. cbn [temp_pdf screen].
  unfold bind at 1. unfold show at 1. cbn [temp_pdf screen].
  rewrite <- app_assoc. cbn [app].
  unfold bind at 1. rewrite H. cbn [temp_pdf screen app].
  unfold opening. rewrite <- !app_assoc. cbn [app].
  destruct added; reflexivity.
Qed.

Lemma try_body_no_records (w : world) :
  flat_map records tables = [] ->
  try_body E w =
  (Ok tt,
   mk_world true
     (screen w ++ opening tables
      ++ [warning (u8 "⚠️ Nenhum dado válido encontrado após processamento")])).
Proof.
  intros Hnone. destruct (try_body_loop w) as (added & Hok & Hrows & H).
  rewrite Hnone in Hrows. rewrite (fragments_none Hok Hrows) in H.
  rewrite H. unfold show. cbn [temp_pdf screen]. now rewrite <- app_assoc.
Qed.

Lemma try_body_records (w : world) :
  flat_map records tables <> [] ->
  try_body E w =
  export E (combined tables)
         (mk_world true
            (screen w ++ opening tables ++ summary_events (combined tables))).
Proof.
  intros Hsome. destruct (try_body_loop w) as (added & Hok & Hrows & H).
  assert (Hne : added <> []).
  { intros ->. apply Hsome. now rewrite <- Hrows. }
  rewrite H. destruct added as [|d ds]; [congruence|].
  rewrite (concat_combined tables Hok Hne Hrows).
  unfold bind. rewrite summary_fixed_header by reflexivity.
  cbn [temp_pdf screen]. unfold summary_events.
  now rewrite <- !app_assoc.
Qed.

End ReadPass.

Section PassPage.

Lemma opening_quiet (tables : list DataFrame) :
  Forall (fun e => is_error e = false /\ is_download e = false)
         (opening tables).
Proof.
  unfold opening. apply Forall_app. split; [repeat constructor|].
  eapply Forall_impl; [|apply loop_events_kinds].
  intros [] H; simpl in *; try discriminate; now split.
Qed.

Lemma summary_events_quiet (final_df : DataFrame) :
  Forall (fun e => is_error e = false /\ is_download e = false)
         (summary_events final_df).
Proof.
  unfold summary_events. repeat (apply Forall_cons; [now split|]).
  apply Forall_app. split.
  - destruct (1 <? _); repeat constructor.
  - repeat constructor.
Qed.

End PassPage.

(** X3. When the upload is staged and read and no table gives a record
    (no table at all, or none that passes the checks and has a row with
    a numeric identifier), the pass ends normally and without the
    staged file; it shows the number of detected tables, what the loop
    shows, and then the warning of line 149: no summary, no download
    button, no error message. *)
Theorem pass_without_records
        (E : env) (tables : list DataFrame) (w : world) :
  save E = Saved ->
  read_pdf E = Ok tables ->
  flat_map records tables = [] ->
  exists evs,
    processing_pass E w =
    (Ok tt,
     mk_world false
       (screen w ++
        [ success (u8 "✅ " ++ str_of_nat (length tables)
                   ++ u8 " tabelas detectadas");
          progress 0 1 ]
        ++ evs
        ++ [warning (u8 "⚠️ Nenhum dado válido encontrado após processamento")]))
    /\ Forall (fun e => is_warning e || is_progress e = true) evs.
Proof.
  intros Hs Hr Hnone. exists (loop_events (length tables) 0 tables).
  split; [|apply loop_events_kinds].
  unfold processing_pass. rewrite (@try_body_no_records E tables Hs Hr w Hnone).
  unfold except_Exception, ret. rewrite finally_keeps_screen.
  cbn [screen]. unfold opening. now rewrite <- !app_assoc.
Qed.

Lemma pass_without_records_witness :
  save nothing_valid = Saved
  /\ read_pdf nothing_valid = Ok [from_grid five_columns]
  /\ flat_map records [from_grid five_columns] = []
  /\ exists evs,
       processing_pass nothing_valid w0 =
       (Ok tt,
        mk_world false
          ([ success (u8 "✅ 1 tabelas detectadas"); progress 0 1 ]
           ++ evs
           ++ [warning (u8 "⚠️ Nenhum dado válido encontrado após processamento")]))
       /\ Forall (fun e => is_warning e || is_progress e = true) evs.
Proof.
  assert (Hn : flat_map records [from_grid five_columns] = [])
    by (vm_compute; reflexivity).
  split; [reflexivity|]. split; [reflexivity|]. split; [exact Hn|].
  exact (@pass_without_records nothing_valid [from_grid five_columns] w0
           eq_refl eq_refl Hn).
Defined.

(** X4. When the upload is staged and read, some table gives a record
    and CSV is chosen, the pass ends normally and without the staged
    file, shows no error message, and the last thing it shows is the
    one download button: the text of [to_csv] for the frame of all
    records under the fixed header, named dados_extraidos.csv, of type
    text/csv.  Before it come the record count and the frame itself. *)
Theorem pass_offers_csv
        (E : env) (tables : list DataFrame) (w : world) :
  save E = Saved ->
  read_pdf E = Ok tables ->
  flat_map records tables <> [] ->
  chosen_format E = CSV ->
  exists evs,
    processing_pass E w =
    (Ok tt,
     mk_world false
       (screen w ++ evs
        ++ [download_button
              (u8 "📩 Download em CSV")
              (Text (to_csv (linesep E)
                            (mk_df (map Name fixed_header)
                                   (flat_map records tables))))
              (u8 "dados_extraidos.csv")
              (u8 "text/csv")]))
    /\ Forall (fun e => is_error e = false /\ is_download e = false) evs
    /\ In (metric (u8 "Total de Registros")
                  (MInt (length (flat_map records tables)))) evs
    /\ In (dataframe (mk_df (map Name fixed_header)
                            (flat_map records tables))) evs.
Proof.
  intros Hs Hr Hsome Hf.
  exists (opening tables ++ summary_events (combined tables)).
  split; [|split; [|split]].
  - unfold processing_pass.
    rewrite (@try_body_records E tables Hs Hr w Hsome).
    unfold export. rewrite Hf. unfold bind, ret, show.
    cbn [temp_pdf screen format_name]. unfold except_Exception, ret.
    rewrite finally_keeps_screen. cbn [screen].
    now rewrite <- !app_assoc.
  - apply Forall_app. split; [apply opening_quiet | apply summary_events_quiet].
  - apply in_or_app. right. unfold summary_events, combined, len.
    cbn [rows]. simpl. tauto.
  - apply in_or_app. right. unfold summary_events.
    apply in_or_app. right. apply in_or_app. right. now left.
Qed.

Lemma pass_offers_csv_witness :
  save readable = Saved
  /\ read_pdf readable = Ok [from_grid scenario_grid]
  /\ flat_map records [from_grid scenario_grid] <> []
  /\ chosen_format readable = CSV
  /\ exists evs,
       processing_pass readable w0 =
       (Ok tt,
        mk_world false
          (evs
           ++ [download_button
                 (u8 "📩 Download em CSV")
                 (Text (u8 "Nº TOMB.,ESPECIFICAÇÃO,CLASSIFICAÇÃO,OBSERVAÇÃO,RESPONSÁVEL,LOCALIZAÇÃO"
                        ++ [NEWLINE]
                        ++ lit "12,Chair,Furniture,<NA>,Alice,RoomA"
                        ++ [NEWLINE]))
                 (u8 "dados_extraidos.csv")
                 (u8 "text/csv")])).
Proof.
  assert (Hn : flat_map records [from_grid scenario_grid] <> [])
    by (vm_compute; discriminate).
  split; [reflexivity|]. split; [reflexivity|]. split; [exact Hn|].
  split; [reflexivity|].
  destruct (@pass_offers_csv readable [from_grid scenario_grid] w0
              eq_refl eq_refl Hn eq_refl) as (evs & Hp & _).
  exists evs. rewrite Hp. reflexivity.
Defined.

(** X5. With the workbook chosen instead, and the writer of pandas and
    openpyxl returning its bytes for the frame of all records, the
    download button carries these bytes, named dados_extraidos.xlsx, of
    the spreadsheet type; the rest is as for CSV. *)
Theorem pass_offers_workbook
        (E : env) (tables : list DataFrame) (w : world) (bytes : list N) :
  save E = Saved ->
  read_pdf E = Ok tables ->
  flat_map records tables <> [] ->
  chosen_format E = Excel ->
  to_excel E (mk_df (map Name fixed_header) (flat_map records tables))
    = Ok bytes ->
  exists evs,
    processing_pass E w =
    (Ok tt,
     mk_world false
       (screen w ++ evs
        ++ [download_button
              (u8 "📩 Download em Excel")
              (Bytes bytes)
              (u8 "dados_extraidos.xlsx")
              (u8 "application/vnd.openxmlformats-officedocument.spreadsheetml.sheet")]))
    /\ Forall (fun e => is_error e = false /\ is_download e = false) evs.
Proof.
  intros Hs Hr Hsome Hf Hx.
  exists (opening tables ++ summary_events (combined tables)).
  split.
  - unfold processing_pass.
    rewrite (@try_body_records E tables Hs Hr w Hsome).
    unfold export. rewrite Hf. unfold bind at 1. unfold bind at 1.
    unfold lift. unfold combined. rewrite Hx. unfold ret, show.
    cbn [temp_pdf screen format_name]. unfold except_Exception, ret.
    rewrite finally_keeps_screen. cbn [screen].
    now rewrite <- !app_assoc.
  - apply Forall_app. split; [apply opening_quiet | apply summary_events_quiet].
Qed.

Lemma pass_offers_workbook_witness :
  save workbook = Saved
  /\ read_pdf workbook = Ok [from_grid scenario_grid]
  /\ flat_map records [from_grid scenario_grid] <> []
  /\ chosen_format workbook = Excel
  /\ exists evs,
       processing_pass workbook w0 =
       (Ok tt,
        mk_world false
          (evs
           ++ [download_button
                 (u8 "📩 Download em Excel")
                 (Bytes [0x50; 0x4B]%N)
                 (u8 "dados_extraidos.xlsx")
                 (u8 "application/vnd.openxmlformats-officedocument.spreadsheetml.sheet")])).
Proof.
  assert (Hn : flat_map records [from_grid scenario_grid] <> [])
    by (vm_compute; discriminate).
  split; [reflexivity|]. split; [reflexivity|]. split; [exact Hn|].
  split; [reflexivity|].
  destruct (@pass_offers_workbook workbook [from_grid scenario_grid] w0
              [0x50; 0x4B]%N eq_refl eq_refl Hn eq_refl eq_refl)
    as (evs & Hp & _).
  exists evs. exact Hp.
Defined.

(** X6. When the workbook is chosen and its writer raises an instance
    of [Exception] (openpyxl missing, say), the error message comes
    after the summary: the page already holds the record count and the
    frame of all records, then the one error message with the text of
    the exception, and no download button; the pass ends normally and
    without the staged file. *)
Theorem workbook_failure_follows_summary
        (E : env) (tables : list DataFrame) (w : world) (e : exn) :
  save E = Saved ->
  read_pdf E = Ok tables ->
  flat_map records tables <> [] ->
  chosen_format E = Excel ->
  to_excel E (mk_df (map Name fixed_header) (flat_map records tables))
    = Raise e ->
  is_Exception e = true ->
  exists evs,
    processing_pass E w =
    (Ok tt,
     mk_world false
       (screen w ++ evs
        ++ [error (u8 "❌ Erro inesperado: " ++ exn_str e)]))
    /\ Forall (fun e => is_error e = false /\ is_download e = false) evs
    /\ In (metric (u8 "Total de Registros")
                  (MInt (length (flat_map records tables)))) evs
    /\ In (dataframe (mk_df (map Name fixed_header)
                            (flat_map records tables))) evs.
Proof.
  intros Hs Hr Hsome Hf Hx He.
  exists (opening tables ++ summary_events (combined tables)).
  split; [|split; [|split]].
  - unfold processing_pass.
    rewrite (@try_body_records E tables Hs Hr w Hsome).
    unfold export. rewrite Hf. unfold bind at 1. unfold bind at 1.
    unfold lift. unfold combined. rewrite Hx.
    unfold except_Exception. rewrite He. unfold show.
    cbn [temp_pdf screen]. rewrite finally_keeps_screen. cbn [screen].
    now rewrite <- !app_assoc.
  - apply Forall_app. split; [apply opening_quiet | apply summary_events_quiet].
  - apply in_or_app. right. unfold summary_events, combined, len.
    cbn [rows]. simpl. tauto.
  - apply in_or_app. right. unfold summary_events.
    apply in_or_app. right. apply in_or_app. right. now left.
Qed.

Lemma workbook_failure_follows_summary_witness :
  save no_openpyxl = Saved
  /\ read_pdf no_openpyxl = Ok [from_grid scenario_grid]
  /\ flat_map records [from_grid scenario_grid] <> []
  /\ chosen_format no_openpyxl = Excel
  /\ exists evs,
       processing_pass no_openpyxl w0 =
       (Ok tt,
        mk_world false
          (evs ++ [error (u8 "❌ Erro inesperado: No module named 'openpyxl'")]))
       /\ In (metric (u8 "Total de Registros") (MInt 1)) evs.
Proof.
  assert (Hn : flat_map records [from_grid scenario_grid] <> [])
    by (vm_compute; discriminate).
  split; [reflexivity|]. split; [reflexivity|]. split; [exact Hn|].
  split; [reflexivity|].
  destruct (@workbook_failure_follows_summary no_openpyxl
              [from_grid scenario_grid] w0
              (mk_exn OtherException (lit "No module named 'openpyxl'"))
              eq_refl eq_refl Hn eq_refl eq_refl eq_refl)
    as (evs & Hp & _ & Hm & _).
  exists evs. split; [exact Hp | exact Hm].
Defined.

(** * What every record of the combined frame satisfies *)

Section Records.

Lemma records_decimal (tbl : DataFrame) (r : list cell) :
  In r (records tbl) -> decimal_digits (identifier r) = true.
Proof.
  unfold records. destruct (_ || _); [easy|].
  intros H. now apply filter_In in H.
Qed.

Lemma all_records_decimal (tables : list DataFrame) (r : list cell) :
  In r (flat_map records tables) -> decimal_digits (identifier r) = true.
Proof.
  intros H. apply in_flat_map in H as (tbl & _ & H).
  now apply records_decimal with tbl.
Qed.

End Records.

(** X7. Every record of the frame the loop builds from rectangular
    tables has six cells, each a text (never a missing value) in which
    whitespace occurs only as single spaces between other characters,
    so without line break and with nothing to strip, and its first cell
    is made of one or more decimal digits. *)
Theorem combined_frame_invariant
        (tables : list DataFrame) (w w' : world) (df_list : list DataFrame) :
  Forall rectangular tables ->
  process_tables (length tables) 0 tables [] w = (Ok df_list, w') ->
  Forall (fun r =>
            length r = 6
            /\ decimal_digits (identifier r) = true
            /\ Forall (fun x => exists s,
                         x = Str s
                         /\ squeezed false s = true
                         /\ strip s = s
                         /\ one_line s = true) r)
         (rows (concat df_list)).
Proof.
  intros Hrect Hp.
  destruct (process_tables_events (length tables) tables 0 [] w)
    as (added & H & _ & Hrows).
  rewrite Hp in H. inversion H; subst df_list. clear H.
  change (rows (concat added)) with (flat_map rows added). rewrite Hrows.
  pose proof (all_records_final Hrect) as Hfin.
  rewrite Forall_forall in *. intros r Hr.
  destruct (Hfin r Hr) as [Hlen Hcells].
  split; [exact Hlen|]. split; [now apply all_records_decimal with tables|].
  rewrite Forall_forall in *. intros x Hx.
  destruct (Hcells x Hx) as (y & ->). exists (clean_cell y).
  split; [reflexivity|]. split; [apply clean_cell_squeezed|].
  split; [apply clean_cell_stripped|].
  apply squeezed_one_line with false, clean_cell_squeezed.
Qed.

Lemma combined_frame_invariant_witness :
  Forall rectangular [from_grid scenario_grid]
  /\ Forall (fun r =>
               length r = 6
               /\ decimal_digits (identifier r) = true
               /\ Forall (fun x => exists s,
                            x = Str s
                            /\ squeezed false s = true
                            /\ strip s = s
                            /\ one_line s = true) r)
            (rows (concat
                     [mk_df (map Name fixed_header)
                        [ [Str (lit "12"); Str (lit "Chair");
                           Str (lit "Furniture"); Str (lit "<NA>");
                           Str (lit "Alice"); Str (lit "RoomA")] ]])).
Proof.
  assert (Hrect : Forall rectangular [from_grid scenario_grid])
    by (repeat constructor).
  split; [exact Hrect|].
  apply (@combined_frame_invariant [from_grid scenario_grid] w0
           (mk_world false [progress 1 1]) _ Hrect).
  vm_compute. reflexivity.
Defined.

(** * The distinct counts of the summary *)

Section Distinct.

Lemma nunique_le (s : list cell) : nunique s <= length (present s).
Proof.
  unfold nunique. destruct (tally_keys (present s)) as (ND & Hin & _).
  rewrite <- (length_map fst). apply NoDup_incl_length; [exact ND|].
  intros v Hv. now apply Hin.
Qed.

Lemma nunique_pos (s : list cell) : present s <> [] -> 1 <= nunique s.
Proof.
  unfold nunique. destruct (tally_keys (present s)) as (_ & Hin & _).
  destruct (present s) as [|v vs] eqn:E; [congruence|]. intros _.
  assert (H : In v (map fst (tally (v :: vs)))) by (apply Hin; now left).
  rewrite <- (length_map fst). destruct (map fst (tally (v :: vs))); [easy|].
  simpl. lia.
Qed.

Lemma present_column (i : nat) (rs : list (list cell)) :
  Forall final_record rs -> i < 6 ->
  length (present (map (fun r => nth i r NA) rs)) = length rs.
Proof.
  intros Hf Hi. induction Hf as [|r rs [Hlen Hcells] _ IH]; [reflexivity|].
  simpl. rewrite Forall_forall in Hcells.
  destruct (Hcells (nth i r NA)) as (y & ->).
  { apply nth_In. lia. }
  simpl. now rewrite IH.
Qed.

End Distinct.

(** X8. For the frame the loop builds from rectangular tables, when it
    has a record, each of the six columns has at least one and at most
    as many distinct values as there are records.  So the summary shows
    numbers for the distinct classifications and responsible parties:
    the "N/A" of lines 104 and 109 is never displayed. *)
Theorem distinct_counts_are_numbers
        (tables : list DataFrame) (w w' w1 : world)
        (df_list : list DataFrame) :
  Forall rectangular tables ->
  process_tables (length tables) 0 tables [] w = (Ok df_list, w') ->
  df_list <> [] ->
  (forall i, i < 6 ->
     1 <= nunique (column i (concat df_list)) <= len (concat df_list))
  /\ In (metric (u8 "Classificações Únicas")
                (MInt (nunique (column 2 (concat df_list)))))
        (screen (snd (summary (concat df_list) w1)))
  /\ In (metric (u8 "Responsáveis Únicos")
                (MInt (nunique (column 4 (concat df_list)))))
        (screen (snd (summary (concat df_list) w1))).
Proof.
  intros Hrect Hp Hne.
  destruct (process_tables_events (length tables) tables 0 [] w)
    as (added & H & Hok & Hrows).
  rewrite Hp in H. inversion H; subst df_list. clear H.
  assert (Hfin : Forall final_record (rows (concat added))).
  { change (rows (concat added)) with (flat_map rows added). rewrite Hrows.
    now apply all_records_final. }
  assert (Hrs : rows (concat added) <> []).
  { destruct added as [|d ds]; [congruence|].
    inversion Hok as [|? ? [_ Hd] _]; subst. simpl.
    intros Hnil. apply app_eq_nil in Hnil as [Hnil _]. congruence. }
  assert (Hb : forall i, i < 6 ->
     1 <= nunique (column i (concat added)) <= len (concat added)).
  { intros i Hi. unfold column, len.
    pose proof (present_column Hfin Hi) as Hlen. split.
    - apply nunique_pos. intros Hnil. rewrite Hnil in Hlen. simpl in Hlen.
      apply Hrs, length_zero_iff_nil. symmetry. exact Hlen.
    - rewrite <- Hlen. apply nunique_le. }
  split; [exact Hb|].
  rewrite (summary_fixed_header (concat added) w1
             (columns_concat_ok Hok Hne)).
  cbn [snd screen].
  replace (nunique (column 4 (concat added)) =? 0) with false
    by (symmetry; apply Nat.eqb_neq; specialize (Hb 4); lia).
  split; apply in_or_app; right; simpl; tauto.
Qed.

Lemma distinct_counts_are_numbers_witness :
  Forall rectangular [from_grid scenario_grid]
  /\ 1 <= nunique (column 4
                     (concat
                        [mk_df (map Name fixed_header)
                           [ [Str (lit "12"); Str (lit "Chair");
                              Str (lit "Furniture"); Str (lit "<NA>");
                              Str (lit "Alice"); Str (lit "RoomA")] ]]))
       <= 1.
Proof.
  assert (Hrect : Forall rectangular [from_grid scenario_grid])
    by (repeat constructor).
  split; [exact Hrect|].
  refine (proj1 (@distinct_counts_are_numbers [from_grid scenario_grid] w0
                   (mk_world false [progress 1 1]) w0 _ Hrect _ _) 4 _).
  - vm_compute. reflexivity.
  - discriminate.
  - lia.
Defined.

(** * The most frequent values (lines 111, 119 and 123) *)

Section TopValues.

Lemma list_sum_bump (x : pystr) (acc : list (pystr * nat)) :
  list_sum (map snd (bump x acc)) = S (list_sum (map snd acc)).
Proof.
  induction acc as [|[y n] t IH]; [reflexivity|].
  simpl. destruct (pystr_eqb x y); simpl; [reflexivity|]. rewrite IH. lia.
Qed.

Lemma list_sum_tally (vs : list pystr) :
  list_sum (map snd (tally vs)) = length vs.
Proof.
  induction vs as [|x vs IH] using rev_ind; [reflexivity|].
  rewrite tally_snoc, list_sum_bump, IH, length_app. simpl. lia.
Qed.

Lemma list_sum_permutation (l l' : list nat) :
  Permutation l l' -> list_sum l = list_sum l'.
Proof. induction 1; simpl; lia. Qed.

Lemma sorted_head_before_tail {A} (R : A -> A -> Prop) (l : list A) :
  StronglySorted R l ->
  forall k a b, In a (firstn k l) -> In b (skipn k l) -> R a b.
Proof.
  induction 1 as [|x l Hs IH Hf]; intros k a b Ha Hb.
  - now rewrite firstn_nil in Ha.
  - destruct k as [|k]; [easy|]. simpl in Ha, Hb.
    destruct Ha as [<- | Ha].
    + rewrite Forall_forall in Hf. apply Hf.
      rewrite <- (firstn_skipn k l). apply in_or_app. now right.
    + now apply IH with k.
Qed.

End TopValues.

(** X9. The first k entries of [value_counts], which is what the
    caption (k = 3) and the two frequency tables (k = 10) show, are the
    k most frequent values: each is shown with the exact number of its
    occurrences, which is at least 1, and no value left out occurs more
    often than a value shown.  Over all values the counts add up to the
    number of cells that are not missing. *)
Theorem top_values_are_most_frequent (s : list cell) (k : nat) :
  length (firstn k (value_counts s)) = Nat.min k (nunique s)
  /\ (forall v n, In (v, n) (firstn k (value_counts s)) ->
                  n = occurrences v (present s) /\ 1 <= n)
  /\ (forall a b, In a (firstn k (value_counts s)) ->
                  In b (skipn k (value_counts s)) -> snd b <= snd a)
  /\ list_sum (map snd (value_counts s)) = length (present s).
Proof.
  split; [|split; [|split]].
  - now rewrite length_firstn, nunique_value_counts.
  - intros v n H.
    assert (H' : In (v, n) (value_counts s)).
    { rewrite <- (firstn_skipn k (value_counts s)). apply in_or_app. now left. }
    apply value_counts_entries in H' as [Hv ->]. split; [reflexivity|].
    now apply occurrences_pos.
  - intros a b Ha Hb. apply ranked_before_le with (present s).
    now apply (sorted_head_before_tail (value_counts_sorted s) k).
  - rewrite <- list_sum_tally. apply list_sum_permutation, Permutation_map.
    apply value_counts_perm.
Qed.

(** * What the cleaning of line 82 keeps *)

Section Kept.

Lemma nonspace_sub_runs (s : pystr) :
  forall b, nonspace (sub_runs isspace [SPACE] b s) = nonspace s.
Proof.
  induction s as [|c t IH]; intros b; [reflexivity|].
  simpl. destruct (isspace c) eqn:Hc.
  - destruct b; simpl; rewrite ?Hc; simpl; apply IH.
  - simpl. rewrite Hc. simpl. now rewrite IH.
Qed.

Lemma nonspace_lstrip (s : pystr) : nonspace (lstrip s) = nonspace s.
Proof.
  induction s as [|c t IH]; [reflexivity|].
  simpl. destruct (isspace c) eqn:Hc; simpl; [exact IH|]. now rewrite Hc.
Qed.

Lemma nonspace_rstrip (s : pystr) : nonspace (rstrip s) = nonspace s.
Proof.
  induction s as [|c t IH]; [reflexivity|].
  simpl. destruct (rstrip t) as [|x t'] eqn:Hr.
  - destruct (isspace c) eqn:Hc; simpl; rewrite ?Hc; simpl;
      [exact IH | now rewrite <- IH].
  - change (nonspace (c :: x :: t'))
      with (if negb (isspace c) then c :: nonspace (x :: t')
            else nonspace (x :: t')).
    now rewrite IH.
Qed.

Lemma length_sub_runs (s : pystr) :
  forall b, length (sub_runs isspace [SPACE] b s) <= length s.
Proof.
  induction s as [|c t IH]; intros b; [reflexivity|].
  simpl. destruct (isspace c).
  - destruct b; simpl; [specialize (IH true) | specialize (IH true)]; lia.
  - simpl. specialize (IH false). lia.
Qed.

Lemma length_lstrip (s : pystr) : length (lstrip s) <= length s.
Proof.
  induction s as [|c t IH]; [reflexivity|].
  simpl. destruct (isspace c); simpl; lia.
Qed.

Lemma length_rstrip (s : pystr) : length (rstrip s) <= length s.
Proof.
  induction s as [|c t IH]; [reflexivity|].
  simpl. destruct (rstrip t); [destruct (isspace c)|]; simpl in *; lia.
Qed.

Lemma nonspace_nil (s : pystr) :
  nonspace s = [] <-> forallb isspace s = true.
Proof.
  induction s as [|c t IH]; simpl; [easy|].
  destruct (isspace c); simpl; [exact IH|]. split; discriminate.
Qed.

End Kept.

(** X10. Cleaning a cell changes whitespace only: the characters that
    are not whitespace come out as they went in, in the same order, and
    the text does not grow.  The result is empty exactly when the text
    of the cell is made of whitespace only (the empty text included). *)
Theorem clean_cell_keeps_characters (x : cell) :
  nonspace (clean_cell x) = nonspace (py_str x)
  /\ length (clean_cell x) <= length (py_str x)
  /\ (clean_cell x = [] <-> forallb isspace (py_str x) = true).
Proof.
  assert (Hn : nonspace (clean_cell x) = nonspace (py_str x)).
  { unfold clean_cell, strip, re_sub_ws.
    now rewrite nonspace_rstrip, nonspace_lstrip, nonspace_sub_runs. }
  split; [exact Hn|]. split.
  - unfold clean_cell, strip, re_sub_ws.
    etransitivity; [apply length_rstrip|].
    etransitivity; [apply length_lstrip|]. apply length_sub_runs.
  - rewrite <- nonspace_nil, <- Hn. split; [now intros ->|].
    intros Hnil. pose proof (lstrip_strip (re_sub_ws (py_str x))) as Hl.
    fold (clean_cell x) in Hl.
    destruct (lstrip_head (clean_cell x)) as [H | (c & t & H & Hc)];
      rewrite Hl in H; [exact H|].
    rewrite H in Hnil. simpl in Hnil. rewrite Hc in Hnil. discriminate.
Qed.

(** * Rows that are records already *)

Section PassThrough.

Lemma clean_filled_fixed (x : cell) :
  clean_filled x ->
  replace_empty x = x /\ Str (clean_cell x) = x
  /\ (is_empty_str x || isna x) = false.
Proof.
  intros (y & -> & Hy). split; [|split].
  - simpl. now destruct (clean_cell y).
  - f_equal. unfold clean_cell at 1. simpl py_str.
    rewrite re_sub_ws_cleaned. apply clean_cell_stripped.
  - simpl. now destruct (clean_cell y).
Qed.

Lemma clean_record_fixed (r : list cell) :
  clean_record r ->
  map replace_empty r = r
  /\ map (fun x => Str (clean_cell x)) r = r
  /\ forallb (fun x => is_empty_str x || isna x) r = false.
Proof.
  intros (Hlen & Hcells & _). split; [|split].
  - clear Hlen. induction Hcells as [|x r Hx _ IH]; [reflexivity|].
    simpl. rewrite IH. f_equal. apply clean_filled_fixed, Hx.
  - clear Hlen. induction Hcells as [|x r Hx _ IH]; [reflexivity|].
    simpl. rewrite IH. f_equal. apply clean_filled_fixed, Hx.
  - destruct Hcells as [|x r Hx _]; [discriminate|].
    simpl. now destruct (clean_filled_fixed Hx) as (_ & _ & ->).
Qed.

Lemma clean_records_fixed (rs : list (list cell)) :
  Forall clean_record rs ->
  filter (fun r => negb (forallb (fun x => is_empty_str x || isna x) r)) rs = rs
  /\ map (map replace_empty) rs = rs
  /\ map (map (fun x => Str (clean_cell x))) rs = rs
  /\ filter (fun r => decimal_digits (identifier r)) rs = rs.
Proof.
  induction 1 as [|r rs Hr _ (IH1 & IH2 & IH3 & IH4)]; [easy|].
  destruct (clean_record_fixed Hr) as (H1 & H2 & H3).
  destruct Hr as (_ & _ & Hd).
  simpl. rewrite H3, Hd, H1, H2. simpl. now rewrite IH1, IH2, IH3, IH4.
Qed.

End PassThrough.

(** X11. The first row a table keeps is taken as its header and never
    becomes a record, whatever it holds.  When it is followed by rows
    that are records already (six filled clean cells, the first made of
    decimal digits), the loop appends exactly these rows, unchanged and
    in their order, under the fixed header. *)
Theorem first_row_is_dropped_rest_passes
        (ntables idx : nat) (cols : list label)
        (first : list cell) (rs : list (list cell))
        (df_list : list DataFrame) (w : world) :
  length cols = 6 ->
  forallb (fun x => is_empty_str x || isna x) first = false ->
  rs <> [] ->
  Forall clean_record rs ->
  process_table ntables idx (mk_df cols (first :: rs)) df_list w =
  (Ok (df_list ++ [mk_df (map Name fixed_header) rs]),
   mk_world (temp_pdf w) (screen w ++ [progress (idx + 1) ntables])).
Proof.
  intros Hcols Hfirst Hne Hrs.
  destruct (clean_records_fixed Hrs) as (H1 & H2 & H3 & H4).
  set (tbl := mk_df cols (first :: rs)).
  assert (Hrows : rows (prepared tbl) = map replace_empty first :: rs).
  { rewrite rows_prepared. unfold tbl. cbn [rows filter].
    rewrite Hfirst. cbn [negb map]. now rewrite H1, H2. }
  assert (Hlen : 2 <= len (prepared tbl)).
  { unfold len. rewrite Hrows. destruct rs; [congruence | simpl; lia]. }
  assert (Hrec : records tbl = rs).
  { rewrite records_valid by assumption.
    unfold cleaned_rows. rewrite Hrows. cbn [tl]. now rewrite H3, H4. }
  rewrite process_table_valid by assumption.
  unfold appended. rewrite Hrec. destruct rs; [congruence | reflexivity].
Qed.

Lemma first_row_is_dropped_rest_passes_witness :
  length (columns headless) = 6
  /\ forallb (fun x => is_empty_str x || isna x)
             (party_row (lit "1") (lit "Alice")) = false
  /\ [party_row (lit "2") (lit "Bob")] <> []
  /\ Forall clean_record [party_row (lit "2") (lit "Bob")]
  /\ process_table 1 0 headless [] w0 =
     (Ok [mk_df (map Name fixed_header) [party_row (lit "2") (lit "Bob")]],
      mk_world false [progress 1 1]).
Proof.
  assert (Hrs : Forall clean_record [party_row (lit "2") (lit "Bob")]).
  { constructor; [|constructor]. split; [reflexivity|]. split; [|reflexivity].
    unfold party_row.
    repeat (apply Forall_cons;
            [match goal with
             | |- clean_filled (Str ?t) =>
                 exists (Str t); split; [reflexivity | discriminate]
             end|]).
    constructor. }
  assert (Hne : [party_row (lit "2") (lit "Bob")] <> []) by discriminate.
  split; [reflexivity|]. split; [reflexivity|]. split; [exact Hne|].
  split; [exact Hrs|].
  exact (@first_row_is_dropped_rest_passes 1 0 (columns headless)
           (party_row (lit "1") (lit "Alice"))
           [party_row (lit "2") (lit "Bob")] [] w0
           eq_refl eq_refl Hne Hrs).
Defined.

(** * The pattern of line 85 on its own *)

Section Pattern.

Lemma skip_decimals_all (d : pystr) :
  forallb isdecimal d = true -> skip_decimals d = [].
Proof.
  induction d as [|c d IH]; [reflexivity|]. simpl.
  intros H. apply andb_prop in H as [Hc Hd]. rewrite Hc. now apply IH.
Qed.

Lemma skip_decimals_stop (d r : pystr) (c : codepoint) :
  forallb isdecimal d = true -> isdecimal c = false ->
  skip_decimals (d ++ c :: r) = c :: r.
Proof.
  induction d as [|x d IH]; simpl; intros Hd Hc.
  - now rewrite Hc.
  - apply andb_prop in Hd as [Hx Hd]. rewrite Hx. now apply IH.
Qed.

Lemma skip_decimals_split (t : pystr) :
  exists d, t = d ++ skip_decimals t /\ forallb isdecimal d = true.
Proof.
  induction t as [|c t (d & Ht & Hd)]; [now exists []|].
  simpl. destruct (isdecimal c) eqn:Hc.
  - exists (c :: d). simpl. rewrite Hc, Hd. split; [now f_equal | reflexivity].
  - now exists [].
Qed.

End Pattern.

(** X12. Taken on its own, the pattern of line 85 accepts a text made
    of one or more decimal digits and also such a text followed by one
    line feed, and nothing else: it is the cleaning of line 82, which
    comes first, that keeps an identifier with a line feed after it out
    of the records. *)
Theorem pattern_allows_final_newline (s : pystr) :
  match_digits s = true <->
  decimal_digits s = true
  \/ exists d, s = d ++ [NEWLINE] /\ decimal_digits d = true.
Proof.
  split.
  - destruct s as [|c t]; [discriminate|]. unfold match_digits.
    intros H. apply andb_prop in H as [Hc H].
    destruct (skip_decimals_split t) as (d & Ht & Hd).
    destruct (skip_decimals t) as [|c' [|c'' r]]; [| |discriminate].
    + left. rewrite app_nil_r in Ht. subst t. simpl. now rewrite Hc, Hd.
    + right. apply N.eqb_eq in H. subst c'. exists (c :: d).
      split; [simpl; now f_equal|]. simpl. now rewrite Hc, Hd.
  - intros [H | (d & -> & H)].
    + destruct s as [|c t]; [discriminate|]. simpl in H.
      apply andb_prop in H as [Hc Ht]. unfold match_digits.
      now rewrite Hc, (skip_decimals_all t Ht).
    + destruct d as [|c d]; [discriminate|]. simpl in H.
      apply andb_prop in H as [Hc Hd]. simpl app. unfold match_digits.
      rewrite Hc. now rewrite (skip_decimals_stop d [] NEWLINE Hd eq_refl).
Qed.

(** * Where the records come from *)

Section Provenance.

Lemma tl_length_lt {A} (l : list A) : l <> [] -> length (tl l) < length l.
Proof. destruct l; [congruence | simpl; lia]. Qed.

Lemma In_tl {A} (x : A) (l : list A) : In x (tl l) -> In x l.
Proof. destruct l; [easy | now right]. Qed.

End Provenance.

(** X13. The loop invents nothing: every record of a table is the image
    of one of its rows under lines 65 and 82 (an empty cell replaced,
    every cell cleaned), of a table that has its two rows and exactly
    six columns; and a table gives fewer records than it has rows, its
    header row being spent. *)
Theorem records_come_from_rows (tbl : DataFrame) :
  (forall r, In r (records tbl) ->
     passes_checks tbl = true
     /\ exists r0, In r0 (rows tbl)
                   /\ r = map (fun x => Str (clean_cell (replace_empty x))) r0)
  /\ (records tbl <> [] -> length (records tbl) < len tbl).
Proof.
  assert (Hv : records tbl <> [] ->
               2 <= len (prepared tbl) /\ shape1 tbl = 6).
  { intros Hne.
    destruct (Nat.lt_ge_cases (len (prepared tbl)) 2) as [Hl | Hl].
    { exfalso. apply Hne, records_invalid. now left. }
    destruct (Nat.eq_dec (shape1 tbl) 6) as [Hc | Hc]; [now split|].
    exfalso. apply Hne, records_invalid. now right. }
  split.
  - intros r Hr.
    destruct Hv as [Hl Hc]; [intros Hnil; now rewrite Hnil in Hr|].
    split.
    { unfold passes_checks. rewrite Hc.
      apply andb_true_intro. split; [now apply Nat.leb_le | reflexivity]. }
    rewrite records_valid in Hr by assumption.
    apply filter_In in Hr as [Hr _]. unfold cleaned_rows in Hr.
    apply in_map_iff in Hr as (r1 & <- & Hr1). apply In_tl in Hr1.
    rewrite rows_prepared in Hr1. apply in_map_iff in Hr1 as (r0 & <- & Hr0).
    apply filter_In in Hr0 as [Hr0 _]. exists r0. split; [exact Hr0|].
    now rewrite map_map.
  - intros Hne. destruct (Hv Hne) as [Hl Hc].
    rewrite records_valid by assumption.
    eapply Nat.le_lt_trans; [apply filter_length_le|].
    unfold cleaned_rows. rewrite length_map.
    eapply Nat.lt_le_trans; [|apply len_prepared_le].
    apply tl_length_lt. unfold len in Hl.
    destruct (rows (prepared tbl)); [simpl in Hl; lia | discriminate].
Qed.

Lemma records_come_from_rows_witness :
  records (from_grid scenario_grid) <> []
  /\ length (records (from_grid scenario_grid)) < len (from_grid scenario_grid).
Proof.
  assert (Hn : records (from_grid scenario_grid) <> [])
    by (vm_compute; discriminate).
  split; [exact Hn|].
  exact (proj2 (records_come_from_rows (from_grid scenario_grid)) Hn).
Defined.

(** * The lines of the exported text *)

Section Lines.

Variable ls : pystr.
Hypothesis ls_eol : end_of_line ls.

Lemma line_feeds_app (a b : pystr) :
  line_feeds (a ++ b) = line_feeds a + line_feeds b.
Proof. unfold line_feeds. now rewrite filter_app, length_app. Qed.

Lemma line_feeds_eol : line_feeds ls = 1.
Proof. destruct ls_eol as [-> | ->]; reflexivity. Qed.

Lemma line_feeds_one_line (f : pystr) : one_line f = true -> line_feeds f = 0.
Proof.
  unfold line_feeds. induction f as [|c f IH]; [reflexivity|].
  simpl. intros H. apply andb_prop in H as [Hc Hf].
  apply andb_prop in Hc as [Hn _]. apply negb_true_iff in Hn.
  rewrite Hn. now apply IH.
Qed.

Lemma line_feeds_double_quotes (f : pystr) :
  line_feeds (double_quotes f) = line_feeds f.
Proof.
  unfold line_feeds. induction f as [|c f IH]; [reflexivity|].
  simpl. destruct (codepoint_eqb c QUOTE) eqn:Eq.
  - apply N.eqb_eq in Eq. subst c. simpl. exact IH.
  - simpl. destruct (codepoint_eqb c NEWLINE); simpl; now rewrite IH.
Qed.

Lemma line_feeds_write_field (f : pystr) :
  one_line f = true -> line_feeds (write_field ls f) = 0.
Proof.
  intros H. unfold write_field. destruct (needs_quotes ls f).
  - change (QUOTE :: double_quotes f ++ [QUOTE])
      with ([QUOTE] ++ double_quotes f ++ [QUOTE]).
    rewrite !line_feeds_app, line_feeds_double_quotes.
    now rewrite (line_feeds_one_line f H).
  - rewrite line_feeds_double_quotes. now apply line_feeds_one_line.
Qed.

Lemma line_feeds_join (fs : list pystr) :
  Forall (fun f => one_line f = true) fs ->
  line_feeds (join [COMMA] (map (write_field ls) fs)) = 0.
Proof.
  induction 1 as [|f fs Hf Hfs IH]; [reflexivity|].
  destruct fs as [|g fs].
  - simpl. now apply line_feeds_write_field.
  - change (join [COMMA] (map (write_field ls) (f :: g :: fs)))
      with (write_field ls f ++ [COMMA]
            ++ join [COMMA] (map (write_field ls) (g :: fs))).
    rewrite !line_feeds_app, IH, (line_feeds_write_field f Hf). reflexivity.
Qed.

Lemma line_feeds_write_row (fs : list pystr) :
  Forall (fun f => one_line f = true) fs ->
  line_feeds (write_row ls fs) = 1.
Proof.
  intros H.
  assert (Hj : line_feeds (join [COMMA] (map (write_field ls) fs) ++ ls) = 1)
    by (rewrite line_feeds_app, (line_feeds_join H), line_feeds_eol;
        reflexivity).
  destruct fs as [|[|c f] [|g fs]]; exact Hj.
Qed.

Lemma line_feeds_rows (rs : list (list cell)) :
  Forall final_record rs ->
  line_feeds (flat_map (fun r => write_row ls (map csv_value r)) rs)
  = length rs.
Proof.
  induction 1 as [|r rs Hr _ IH]; [reflexivity|].
  cbn [flat_map]. rewrite line_feeds_app, IH.
  destruct (final_record_fields Hr) as (_ & Hl & _).
  now rewrite (line_feeds_write_row Hl).
Qed.

End Lines.

(** X14. The text exported for the frame of all records of rectangular
    tables has one line per record after the line of the header: it
    holds one line feed more than there are records, no cell bringing a
    line break of its own into it. *)
Theorem export_has_one_line_per_record
        (tables : list DataFrame) (ls : pystr) :
  Forall rectangular tables ->
  end_of_line ls ->
  line_feeds (to_csv ls (mk_df (map Name fixed_header)
                               (flat_map records tables)))
  = S (length (flat_map records tables)).
Proof.
  intros Hrect Hls. unfold to_csv. cbn [columns rows].
  rewrite line_feeds_app.
  rewrite (line_feeds_rows Hls (all_records_final Hrect)).
  replace (map csv_label (map Name fixed_header)) with fixed_header
    by reflexivity.
  rewrite (line_feeds_write_row Hls (fs := fixed_header)); [reflexivity|].
  repeat constructor.
Qed.

Lemma export_has_one_line_per_record_witness :
  Forall rectangular [from_grid scenario_grid]
  /\ end_of_line [CR; NEWLINE]
  /\ line_feeds (to_csv [CR; NEWLINE]
                   (mk_df (map Name fixed_header)
                          (flat_map records [from_grid scenario_grid])))
     = 2.
Proof.
  assert (Hrect : Forall rectangular [from_grid scenario_grid])
    by (repeat constructor).
  assert (Hls : end_of_line [CR; NEWLINE]) by now right.
  split; [exact Hrect|]. split; [exact Hls|].
  exact (export_has_one_line_per_record Hrect Hls).
Defined.

(** * Stripping and collapsing commute *)

Section Commute.

Lemma lstrip_sub_runs (s : pystr) :
  forall b, lstrip (sub_runs isspace [SPACE] b s)
            = sub_runs isspace [SPACE] false (lstrip s).
Proof.
  induction s as [|c t IH]; intros b; [reflexivity|].
  simpl. destruct (isspace c) eqn:Hc.
  - destruct b; simpl; apply IH.
  - simpl. now rewrite Hc.
Qed.

Lemma rstrip_keeps_nonspace (u : pystr) :
  rstrip u <> [] -> nonspace (rstrip u) <> [].
Proof.
  induction u as [|c t IH]; simpl; [congruence|].
  destruct (rstrip t) as [|x t'] eqn:Hr.
  - destruct (isspace c) eqn:Hc; [congruence|].
    intros _. simpl. rewrite Hc. discriminate.
  - intros _.
    change (nonspace (c :: x :: t'))
      with (if negb (isspace c) then c :: nonspace (x :: t')
            else nonspace (x :: t')).
    destruct (negb (isspace c)); [discriminate|]. apply IH. discriminate.
Qed.

Lemma sub_runs_cons (b : bool) (c : codepoint) (t : pystr) :
  sub_runs isspace [SPACE] b (c :: t) =
  if isspace c
  then if b then sub_runs isspace [SPACE] true t
       else SPACE :: sub_runs isspace [SPACE] true t
  else c :: sub_runs isspace [SPACE] false t.
Proof. reflexivity. Qed.

Lemma rstrip_cons (c : codepoint) (t : pystr) :
  rstrip (c :: t) =
  match rstrip t with
  | [] => if isspace c then [] else [c]
  | r => c :: r
  end.
Proof. reflexivity. Qed.

Lemma rstrip_sub_runs (u : pystr) :
  forall b, rstrip (sub_runs isspace [SPACE] b u)
            = sub_runs isspace [SPACE] b (rstrip u).
Proof.
  induction u as [|c t IH]; intros b; [reflexivity|].
  rewrite sub_runs_cons, (rstrip_cons c t).
  destruct (isspace c) eqn:Hc.
  - assert (Hne : rstrip t <> [] ->
                  sub_runs isspace [SPACE] true (rstrip t) <> []).
    { intros H Hnil. apply (rstrip_keeps_nonspace t H).
      now rewrite <- (nonspace_sub_runs (rstrip t) true), Hnil. }
    destruct b.
    + rewrite IH. destruct (rstrip t) as [|x t'] eqn:Hr; [reflexivity|].
      now rewrite (sub_runs_cons true c), Hc.
    + rewrite rstrip_cons, IH.
      destruct (rstrip t) as [|x t'] eqn:Hr; [reflexivity|].
      rewrite (sub_runs_cons false c), Hc.
      destruct (sub_runs isspace [SPACE] true (x :: t')) eqn:Hs;
        [|reflexivity].
      exfalso. now apply Hne.
  - rewrite (rstrip_cons_nonspace c _ Hc), IH.
    destruct (rstrip t) as [|x t'] eqn:Hr.
    + now rewrite (sub_runs_cons b c), Hc.
    + now rewrite (sub_runs_cons b c), Hc.
Qed.

Lemma strip_re_sub_ws (s : pystr) : strip (re_sub_ws s) = re_sub_ws (strip s).
Proof.
  unfold strip, re_sub_ws. now rewrite lstrip_sub_runs, rstrip_sub_runs.
Qed.

Lemma decimals_squeezed (t : pystr) :
  forallb isdecimal t = true -> squeezed false t = true.
Proof.
  induction t as [|c t IH]; [reflexivity|]. simpl.
  intros H. apply andb_prop in H as [Hc Ht].
  rewrite (isdecimal_not_space c Hc). now apply IH.
Qed.

Lemma sub_runs_decimals (t : pystr) :
  forallb isdecimal (sub_runs isspace [SPACE] false t) = true ->
  sub_runs isspace [SPACE] false t = t.
Proof.
  induction t as [|c t IH]; [reflexivity|]. simpl.
  destruct (isspace c) eqn:Hc.
  - simpl. discriminate.
  - simpl. intros H. apply andb_prop in H as [_ H]. now rewrite IH.
Qed.

End Commute.

(** X15. Stripping and collapsing commute, so what decides whether a
    row is kept is the raw identifier with the whitespace around it
    taken off: the filter of line 85 accepts the cleaned identifier
    exactly when the stripped raw text is made of one or more decimal
    digits, and the record then carries that stripped text.  A text
    with whitespace between its digits is rejected, one with whitespace
    (a line break, say) before or after them is accepted. *)
Theorem identifier_kept_iff_stripped_digits (s : pystr) :
  clean_cell (Str s) = re_sub_ws (strip s)
  /\ str_match_digits (Str (clean_cell (Str s))) = decimal_digits (strip s)
  /\ (decimal_digits (strip s) = true -> clean_cell (Str s) = strip s).
Proof.
  assert (Hc : clean_cell (Str s) = re_sub_ws (strip s))
    by apply strip_re_sub_ws.
  assert (Hk : decimal_digits (strip s) = true ->
               re_sub_ws (strip s) = strip s).
  { intros H. unfold re_sub_ws. apply squeezed_sub_runs.
    destruct (strip s) as [|c t]; [discriminate|].
    now apply decimals_squeezed. }
  split; [exact Hc|]. split.
  - cbn [str_match_digits].
    rewrite (@match_digits_squeezed _ false (clean_cell_squeezed (Str s))).
    rewrite Hc.
    destruct (decimal_digits (strip s)) eqn:Hd; [now rewrite (Hk eq_refl)|].
    destruct (decimal_digits (re_sub_ws (strip s))) eqn:Hr; [|reflexivity].
    assert (He : re_sub_ws (strip s) = strip s).
    { apply sub_runs_decimals. unfold decimal_digits, re_sub_ws in Hr.
      destruct (sub_runs isspace [SPACE] false (strip s)); [discriminate|].
      exact Hr. }
    rewrite He in Hr. congruence.
  - intros H. now rewrite Hc, (Hk H).
Qed.

Lemma identifier_kept_iff_stripped_digits_witness :
  decimal_digits (strip (lit " 12" ++ [NEWLINE])) = true
  /\ clean_cell (Str (lit " 12" ++ [NEWLINE])) = lit "12".
Proof.
  assert (H : decimal_digits (strip (lit " 12" ++ [NEWLINE])) = true)
    by reflexivity.
  split; [exact H|].
  exact (proj2 (proj2 (identifier_kept_iff_stripped_digits
                         (lit " 12" ++ [NEWLINE]))) H).
Defined.

(** X16. When the staging of the upload or the extraction raises, the
    pass shows nothing of its own but, for an instance of [Exception],
    the one error message with the text of the exception; any other
    exception leaves the page as it was and goes on to the caller.
    Either way no staged file is left. *)
Theorem early_failure_shows_only_the_error
        (E : env) (w : world) (e : exn) :
  save E = OpenFails e \/ save E = WriteFails e
  \/ (save E = Saved /\ read_pdf E = Raise e) ->
  processing_pass E w =
  if is_Exception e
  then (Ok tt,
        mk_world false
          (screen w ++ [error (u8 "❌ Erro inesperado: " ++ exn_str e)]))
  else (Raise e, mk_world false (screen w)).
Proof.
  intros H. unfold processing_pass.
  assert (Hb : exists tp, try_body E w = (Raise e, mk_world tp (screen w))).
  { unfold try_body. unfold bind at 1. unfold save_upload.
    destruct H as [-> | [-> | [-> Hr]]].
    - exists (temp_pdf w). now destruct w.
    - now exists true.
    - exists true. unfold bind at 1. unfold lift. now rewrite Hr. }
  destruct Hb as (tp & ->). unfold except_Exception.
  destruct (is_Exception e).
  - unfold show. cbn [temp_pdf screen]. now rewrite finally_keeps_screen.
  - unfold lift. now rewrite finally_keeps_screen.
Qed.

Lemma early_failure_shows_only_the_error_witness :
  (save unreadable = OpenFails
                       (mk_exn OtherException (lit "file has not been decrypted"))
   \/ save unreadable = WriteFails
                          (mk_exn OtherException (lit "file has not been decrypted"))
   \/ (save unreadable = Saved
       /\ read_pdf unreadable =
          Raise (mk_exn OtherException (lit "file has not been decrypted"))))
  /\ processing_pass unreadable w0 =
     (Ok tt,
      mk_world false
        [error (u8 "❌ Erro inesperado: file has not been decrypted")]).
Proof.
  assert (H : save unreadable = OpenFails
                       (mk_exn OtherException (lit "file has not been decrypted"))
   \/ save unreadable = WriteFails
                          (mk_exn OtherException (lit "file has not been decrypted"))
   \/ (save unreadable = Saved
       /\ read_pdf unreadable =
          Raise (mk_exn OtherException (lit "file has not been decrypted"))))
    by (right; right; split; reflexivity).
  split; [exact H|].
  exact (@early_failure_shows_only_the_error unreadable w0 _ H).
Defined.
